(** * TextAreaField: numbered-list reformatting, line-break interception and
      blur-time correction

    A shallow embedding of [TextAreaField.tsx] (the multi-line text input of
    the visit-report form) and the properties its specification states about
    it.  JavaScript strings are sequences of UTF-16 code units; the handlers
    of the component are small programs over the component's state with one
    suspension point, the [await] of the injected correction capability. *)

From Stdlib Require Import List NArith Arith Lia Bool Ascii.
From Stdlib Require String.
From Stdlib Require DecimalNat DecimalFacts.
Import ListNotations.
Import String.StringSyntax.
Delimit Scope string_scope with string.


(* ================================================================== *)
(** * JavaScript strings *)
(* ================================================================== *)

Module JS.

(** A UTF-16 code unit, and a string as the list of its code units;
    [length] of the list is the string's [.length]. *)
Abbreviation char := N (only parsing).
Abbreviation jsstring := (list N) (only parsing).

(** A literal whose characters are all ASCII. *)
Definition lit (s : String.string) : jsstring :=
  map N_of_ascii (String.list_ascii_of_string s).

(** The line feed ['\n']. *)
Definition LF : char := 10%N.

(** [===] on two strings. *)
Fixpoint eqb (s t : jsstring) : bool :=
  match s, t with
  | [], [] => true
  | c :: s', d :: t' => N.eqb c d && eqb s' t'
  | _, _ => false
  end.

(** ECMAScript [WhiteSpace] and [LineTerminator] code points: what
    [String.prototype.trim] removes and what the regular-expression class
    [\s] matches. *)
Definition isWhiteSpace (c : char) : bool :=
  ((9 <=? c) && (c <=? 13)          (* TAB LF VT FF CR *)
   || (c =? 32)                      (* SPACE *)
   || (c =? 160)                     (* NO-BREAK SPACE *)
   || (c =? 5760)                    (* U+1680 *)
   || ((8192 <=? c) && (c <=? 8202)) (* U+2000 .. U+200A *)
   || (c =? 8232) || (c =? 8233)     (* U+2028 U+2029 *)
   || (c =? 8239)                    (* U+202F *)
   || (c =? 8287)                    (* U+205F *)
   || (c =? 12288)                   (* U+3000 *)
   || (c =? 65279))%N.               (* U+FEFF *)

(** The regular-expression class [\d]. *)
Definition isDigit (c : char) : bool := ((48 <=? c) && (c <=? 57))%N.

Fixpoint dropWhile (p : char -> bool) (s : jsstring) : jsstring :=
  match s with
  | [] => []
  | c :: s' => if p c then dropWhile p s' else s
  end.

Fixpoint takeWhile (p : char -> bool) (s : jsstring) : jsstring :=
  match s with
  | [] => []
  | c :: s' => if p c then c :: takeWhile p s' else []
  end.

(** [String.prototype.trim]. *)
Definition trimStart (s : jsstring) : jsstring := dropWhile isWhiteSpace s.
Definition trimEnd (s : jsstring) : jsstring := rev (trimStart (rev s)).
Definition trim (s : jsstring) : jsstring := trimEnd (trimStart s).

(** [s.split('\n')]: the maximal pieces between line feeds; never empty,
    the empty string gives one empty piece. *)
Fixpoint split (s : jsstring) : list jsstring :=
  match s with
  | [] => [[]]
  | c :: s' =>
      if (c =? LF)%N then [] :: split s'
      else match split s' with
           | l :: ls => (c :: l) :: ls
           | [] => [[c]]
           end
  end.

(** [lines.join('\n')]. *)
Fixpoint join (ls : list jsstring) : jsstring :=
  match ls with
  | [] => []
  | l :: ls' =>
      match ls' with
      | [] => l
      | _ :: _ => l ++ LF :: join ls'
      end
  end.

(** [s.substring(0, n)] and [s.substring(n)] for an offset [n >= 0]; both
    clamp [n] to the length of [s], as [firstn] and [skipn] do. *)
Definition substringTo (s : jsstring) (n : nat) : jsstring := firstn n s.
Definition substringFrom (s : jsstring) (n : nat) : jsstring := skipn n s.

(** The decimal digits of a counter, as the template literal prints them. *)
Fixpoint charsOfUint (d : Decimal.uint) : jsstring :=
  match d with
  | Decimal.Nil => []
  | Decimal.D0 d' => 48%N :: charsOfUint d'
  | Decimal.D1 d' => 49%N :: charsOfUint d'
  | Decimal.D2 d' => 50%N :: charsOfUint d'
  | Decimal.D3 d' => 51%N :: charsOfUint d'
  | Decimal.D4 d' => 52%N :: charsOfUint d'
  | Decimal.D5 d' => 53%N :: charsOfUint d'
  | Decimal.D6 d' => 54%N :: charsOfUint d'
  | Decimal.D7 d' => 55%N :: charsOfUint d'
  | Decimal.D8 d' => 56%N :: charsOfUint d'
  | Decimal.D9 d' => 57%N :: charsOfUint d'
  end.

Definition toString (n : nat) : jsstring := charsOfUint (Nat.to_uint n).

(** ** Regular expressions

    The fragment the component uses: one character of a class, a greedy
    run of characters of a class, sequence and ordered alternative.  As in
    the ECMAScript semantics a pattern is run against a continuation, the
    rest of the match: a run takes as many characters as it can and gives
    them back one by one while the continuation fails, and the second
    alternative is tried when the first fails with its continuation. *)
Inductive Regex : Type :=
| Class (p : char -> bool)
| Many (p : char -> bool)
| Seq (r1 r2 : Regex)
| Alt (r1 r2 : Regex).

Fixpoint many (p : char -> bool) (s : jsstring)
    (k : jsstring -> option jsstring) : option jsstring :=
  match s with
  | c :: s' =>
      if p c then
        match many p s' k with
        | Some rest => Some rest
        | None => k s
        end
      else k s
  | [] => k s
  end.

Fixpoint exec (r : Regex) (s : jsstring)
    (k : jsstring -> option jsstring) : option jsstring :=
  match r with
  | Class p =>
      match s with
      | c :: s' => if p c then k s' else None
      | [] => None
      end
  | Many p => many p s k
  | Seq r1 r2 => exec r1 s (fun s' => exec r2 s' k)
  | Alt r1 r2 =>
      match exec r1 s k with
      | Some rest => Some rest
      | None => exec r2 s k
      end
  end.

(** [\d+], [\s*] and a literal character. *)
Definition digits : Regex := Seq (Class isDigit) (Many isDigit).
Definition spaces : Regex := Many isWhiteSpace.
Definition chr (c : char) : Regex := Class (fun x => N.eqb x c).

(** The match of [/^r/] in [s]: the matched text and what follows it.
    Without the [m] flag [^] holds at offset 0 only, so the first match
    that [replace] and [match] look for is the match at the start or there
    is none. *)
Definition matchAtStart (r : Regex) (s : jsstring) : option (jsstring * jsstring) :=
  match exec r s (fun rest => Some rest) with
  | Some rest => Some (firstn (length s - length rest) s, rest)
  | None => None
  end.

End JS.

Import JS.

(* ================================================================== *)
(** * The Reformatter *)
(* ================================================================== *)

(** [/^(\d+\.|\*|-)\s*/]: a run of digits and a full stop, or an
    asterisk, or a hyphen (46, 42 and 45), and the white space after it. *)
Definition markerPattern : Regex :=
  Seq (Alt (Seq digits (chr 46)) (Alt (chr 42) (chr 45))) spaces.

(** [s.replace(/^(\d+\.|\*|-)\s*/, '')]: the match at the start of [s] is
    removed when there is one, [s] is returned as it is otherwise. *)
Definition stripMarker (s : jsstring) : jsstring :=
  match matchAtStart markerPattern s with
  | Some (_, rest) => rest
  | None => s
  end.

(** The marker alternatives in closed form: what follows the marker at
    the start of [s], when there is one.  The run of digits is the longest
    one: giving digits back cannot help, the character after a shorter run
    being a digit and not the full stop. *)
Definition matchMarker (s : jsstring) : option jsstring :=
  match takeWhile isDigit s, dropWhile isDigit s with
  | _ :: _, c :: rest =>
      if (c =? 46)%N then Some rest else None
  | _ :: _, [] => None
  | [], _ =>
      match s with
      | c :: rest => if ((c =? 42) || (c =? 45))%N then Some rest else None
      | [] => None
      end
  end.

(** The body of the callback given to [lines.map]: the new line and the
    value of the captured [counter] after the call. *)
Definition numberLine (counter : nat) (line : jsstring) : jsstring * nat :=
  if length (trim line) =? 0 then ([], counter)
  else
    let content := stripMarker (trim line) in
    (toString counter ++ lit ". "%string ++ content, S counter).

(** [lines.map(line => ...)] with the counter the callback increments. *)
Fixpoint mapLines (counter : nat) (lines : list jsstring) : list jsstring :=
  match lines with
  | [] => []
  | line :: rest =>
      let (numbered, counter') := numberLine counter line in
      numbered :: mapLines counter' rest
  end.

Definition reformatTextToNumberedList (text : jsstring) : jsstring :=
  match text with
  | [] => []
  | _ :: _ =>
      let lines := split text in
      let numberedLines := mapLines 1 lines in
      join numberedLines
  end.

(** ** Notions used to state the properties *)

(** A line is blank when nothing is left of it after trimming: the test
    [line.trim().length === 0] of the callback. *)
Definition isBlank (line : jsstring) : bool := length (trim line) =? 0.

(** The number of non-blank lines among [lines]. *)
Definition countNonBlank (lines : list jsstring) : nat :=
  length (filter (fun l => negb (isBlank l)) lines).

(** The 1-based position of line [i] among the non-blank lines. *)
Definition ordinal (lines : list jsstring) (i : nat) : nat :=
  1 + countNonBlank (firstn i lines).

(** A string without a line feed. *)
Definition noLF (s : jsstring) : Prop := ~ In LF s.

(** The line the callback builds from the counter and the content:
    [`${counter}. ${content}`]. *)
Definition numbered (k : nat) (content : jsstring) : jsstring :=
  toString k ++ lit ". "%string ++ content.

(** The markers the specification lists, as they stand at the start of a
    line: a run of digits with a full stop and a space, an asterisk and a
    space, a hyphen and a space. *)
Inductive listedMarker : jsstring -> Prop :=
| marker_ordinal ds :
    ds <> [] -> forallb isDigit ds = true ->
    listedMarker (ds ++ lit ". "%string)
| marker_asterisk : listedMarker (lit "* "%string)
| marker_hyphen : listedMarker (lit "- "%string).

(** The reading of the specification under which a blank line comes out
    of the Reformatter with the characters it went in with. *)
Definition blankLinesVerbatim (text : jsstring) : Prop :=
  forall i line,
    nth_error (split text) i = Some line -> isBlank line = true ->
    nth_error (split (reformatTextToNumberedList text)) i = Some line.

(* ================================================================== *)
(** * The component: state, effects and handlers *)
(* ================================================================== *)

(** How the awaited call [onAutoCorrect(formattedValue)] settles: the
    promise resolves with the corrected text or it rejects. *)
Inductive Outcome : Type :=
| Resolved (correctedValue : jsstring)
| Rejected.

(** The props the handlers read: whether [onAutoCorrect] is given, and
    [readOnly]. *)
Record Props : Type := mkProps {
  onAutoCorrect : bool;
  readOnly : bool
}.

(** The state around one field: [value] is the entry of the form data the
    parent passes back as the [value] prop, and the content of the
    textarea; [selectionStart] is the cursor of the textarea;
    [cursorPosition] and [isCorrecting] are the two [useState] cells;
    [changes] are the values given to [onChange] by [triggerChange], the
    last one first; [errors] counts the calls of [console.error]. *)
Record Field : Type := mkField {
  value : jsstring;
  selectionStart : nat;
  cursorPosition : option nat;
  isCorrecting : bool;
  changes : list jsstring;
  errors : nat
}.

(** What a handler does to the world outside its local variables. *)
Inductive Effect : Type :=
| PreventDefault
| SetCursorPosition (position : option nat)
| SetIsCorrecting (correcting : bool)
| OnChange (newValue : jsstring)
| ConsoleError.

(** A handler is a sequence of effects that ends, or stops at the [await]
    of the correction call and goes on from its outcome. *)
Inductive Handler : Type :=
| Return
| Do (e : Effect) (next : Handler)
| Await (text : jsstring) (resume : Outcome -> Handler).

Fixpoint andThen (h k : Handler) : Handler :=
  match h with
  | Return => k
  | Do e next => Do e (andThen next k)
  | Await text resume => Await text (fun outcome => andThen (resume outcome) k)
  end.

Declare Scope handler_scope.
Delimit Scope handler_scope with handler.
Bind Scope handler_scope with Handler.
Notation "h ;; k" := (andThen h k)
  (at level 61, right associativity) : handler_scope.
Local Open Scope handler_scope.

Definition perform (e : Effect) : Handler := Do e Return.

(** [if (b) { h }]. *)
Definition when (b : bool) (h : Handler) : Handler :=
  if b then h else Return.

(** [try { const v = await onAutoCorrect(text); body(v) } catch { handler }
    finally { last }], for a [body] and a [handler] that do not throw. *)
Definition tryAwait (text : jsstring) (body : jsstring -> Handler)
    (handler last : Handler) : Handler :=
  Await text (fun outcome =>
    match outcome with
    | Resolved v => body v ;; last
    | Rejected => handler ;; last
    end).

(** [triggerChange(e, newValue)]: the synthetic event carries [name] and
    [newValue] to the parent's [onChange]. *)
Definition triggerChange (newValue : jsstring) : Handler :=
  perform (OnChange newValue).

(** The effects on the state.  The parent's [handleChange] stores the
    value it is given under the field's name, and hands it back as the
    [value] prop. *)
Definition applyEffect (e : Effect) (f : Field) : Field :=
  match e with
  | PreventDefault => f
  | SetCursorPosition p =>
      mkField (value f) (selectionStart f) p (isCorrecting f) (changes f) (errors f)
  | SetIsCorrecting b =>
      mkField (value f) (selectionStart f) (cursorPosition f) b (changes f) (errors f)
  | OnChange v =>
      mkField v (selectionStart f) (cursorPosition f) (isCorrecting f)
              (v :: changes f) (errors f)
  | ConsoleError =>
      mkField (value f) (selectionStart f) (cursorPosition f) (isCorrecting f)
              (changes f) (S (errors f))
  end.

(** A call that is outstanding: its argument and what the handler does
    when it settles. *)
Definition Suspended : Type := (jsstring * (Outcome -> Handler))%type.

(** Run a handler up to its end or up to its [await]. *)
Fixpoint run (h : Handler) (f : Field) : Field * option Suspended :=
  match h with
  | Return => (f, None)
  | Do e next => run next (applyEffect e f)
  | Await text resume => (f, Some (text, resume))
  end.

(** ** The line-break handler *)

(** [/^\d+\.\s*/]. *)
Definition ordinalPrefixPattern : Regex := Seq (Seq digits (chr 46)) spaces.

(** [targetLine.match(/^\d+\.\s*/)]: the matched text, [prefixMatch[0]],
    when the pattern matches. *)
Definition matchOrdinalPrefix (s : jsstring) : option jsstring :=
  match matchAtStart ordinalPrefixPattern s with
  | Some (matched, _) => Some matched
  | None => None
  end.

(** The same match in closed form: the longest run of digits, the full
    stop, the longest run of white space. *)
Definition ordinalPrefix (s : jsstring) : option jsstring :=
  match takeWhile isDigit s, dropWhile isDigit s with
  | d :: ds, c :: rest =>
      if (c =? 46)%N
      then Some ((d :: ds) ++ [c] ++ takeWhile isWhiteSpace rest)
      else None
  | _, _ => None
  end.

(** The loop [for (let i = 0; i < targetLineIndex; i++)
    newCursorPos += finalLines[i].length + 1], from [newCursorPos = 0]. *)
Definition sumBefore (finalLines : list jsstring) (targetLineIndex : nat) : nat :=
  fold_left (fun newCursorPos i => newCursorPos + (length (nth i finalLines []) + 1))
            (seq 0 targetLineIndex) 0.

(** Step 4 of [handleKeyDown]: the cursor position computed from the
    reformatted text and the index of the target line. *)
Definition newCursorPosition (finalValue : jsstring) (targetLineIndex : nat) : nat :=
  let finalLines := split finalValue in
  if targetLineIndex <? length finalLines then
    let newCursorPos := sumBefore finalLines targetLineIndex in
    let targetLine := nth targetLineIndex finalLines [] in
    match matchOrdinalPrefix targetLine with
    | Some prefixMatch => newCursorPos + length prefixMatch
    | None => newCursorPos
    end
  else length finalValue.

(** Steps 1 to 3: the index of the line the cursor is on, and the text
    with the line break put in at the cursor. *)
Definition currentLineIndex (currentValue : jsstring) (selectionStart : nat) : nat :=
  let textBeforeCursor := substringTo currentValue selectionStart in
  let linesBeforeCursor := split textBeforeCursor in
  length linesBeforeCursor - 1.

Definition textWithNewline (currentValue : jsstring) (selectionStart : nat) : jsstring :=
  substringTo currentValue selectionStart
    ++ [LF] ++ substringFrom currentValue selectionStart.

Definition handleKeyDown (key currentValue : jsstring) (selectionStart : nat) : Handler :=
  when (JS.eqb key (lit "Enter"%string))
    (perform PreventDefault ;;
     let finalValue :=
       reformatTextToNumberedList (textWithNewline currentValue selectionStart) in
     let targetLineIndex := currentLineIndex currentValue selectionStart + 1 in
     perform (SetCursorPosition (Some (newCursorPosition finalValue targetLineIndex))) ;;
     triggerChange finalValue).

(** ** The blur handler *)

Definition handleBlur (props : Props) (currentValue : jsstring) : Handler :=
  let formattedValue := reformatTextToNumberedList currentValue in
  if onAutoCorrect props && negb (readOnly props)
     && (0 <? length (trim formattedValue))
  then
    perform (SetIsCorrecting true) ;;
    tryAwait formattedValue
      (fun correctedValue =>
         when (negb (JS.eqb currentValue correctedValue))
           (triggerChange correctedValue))
      (perform ConsoleError ;;
       when (negb (JS.eqb currentValue formattedValue))
         (triggerChange formattedValue))
      (perform (SetIsCorrecting false))
  else
    when (negb (JS.eqb currentValue formattedValue))
      (triggerChange formattedValue).

(** ** The layout effect *)

(** [useLayoutEffect]: a pending cursor position is given to the textarea
    by [setSelectionRange], which keeps it within the text, and cleared. *)
Definition layoutEffect (f : Field) : Field :=
  match cursorPosition f with
  | Some p =>
      mkField (value f) (Nat.min p (length (value f))) None
              (isCorrecting f) (changes f) (errors f)
  | None => f
  end.

(** ** The component under the events of the host *)

(** The field and the correction calls that have not settled, the oldest
    first. *)
Record Component : Type := mkComponent {
  field : Field;
  pending : list Suspended
}.

Inductive Event : Type :=
| KeyDown (key : jsstring)
| Input (newValue : jsstring) (newSelection : nat)
| Blur
| Settle (n : nat) (outcome : Outcome)
| Render.

Definition removeNth {A : Type} (n : nat) (l : list A) : list A :=
  firstn n l ++ skipn (S n) l.

(** The handlers as the textarea calls them: the event carries the
    content and the cursor of the textarea. *)
Definition onKeyDown (key : jsstring) (f : Field) : Field * option Suspended :=
  run (handleKeyDown key (value f) (selectionStart f)) f.

Definition onBlur (props : Props) (f : Field) : Field * option Suspended :=
  run (handleBlur props (value f)) f.

(** A call settles: the handler that made it goes on from the outcome. *)
Definition settle (call : Suspended) (outcome : Outcome) (f : Field)
  : Field * option Suspended :=
  run (snd call outcome) f.

(** The state after a handler ran, with the calls outstanding besides the
    one it may have stopped at. *)
Definition after (r : Field * option Suspended) (others : list Suspended) : Component :=
  match r with
  | (f, Some call) => mkComponent f (others ++ [call])
  | (f, None) => mkComponent f others
  end.

(** One event.  [onKeyDown] and [onBlur] are attached only when the field
    is not read-only; typing goes to the parent through [onChange];
    [Settle n outcome] is the [n]-th outstanding call settling. *)
Definition dispatch (props : Props) (ev : Event) (c : Component) : Component :=
  match ev with
  | KeyDown key =>
      if readOnly props then c
      else after (onKeyDown key (field c)) (pending c)
  | Input v sel =>
      let f := field c in
      mkComponent
        (mkField (if readOnly props then value f else v) sel
                 (cursorPosition f) (isCorrecting f) (changes f) (errors f))
        (pending c)
  | Blur =>
      if readOnly props then c
      else after (onBlur props (field c)) (pending c)
  | Settle n outcome =>
      match nth_error (pending c) n with
      | Some call =>
          after (settle call outcome (field c)) (removeNth n (pending c))
      | None => c
      end
  | Render => mkComponent (layoutEffect (field c)) (pending c)
  end.

Definition dispatchAll (props : Props) (evs : list Event) (c : Component) : Component :=
  fold_left (fun c ev => dispatch props ev c) evs c.

(** A freshly mounted field showing [v]. *)
Definition mounted (v : jsstring) (sel : nat) : Component :=
  mkComponent (mkField v sel None false [] 0) [].

(** The key of the line-break keystroke. *)
Definition Enter : jsstring := lit "Enter"%string.

(** The length of the ordinal prefix of a line, 0 when it has none. *)
Definition prefixLength (line : jsstring) : nat :=
  match matchOrdinalPrefix line with
  | Some prefixMatch => length prefixMatch
  | None => 0
  end.

(** The field after a blur and, when the blur started a correction call,
    after that call settled with [outcome]. *)
Definition blurSettled (props : Props) (outcome : Outcome) (f : Field) : Field :=
  match onBlur props f with
  | (f1, Some call) => fst (settle call outcome f1)
  | (f1, None) => f1
  end.

(** The reading of the specification under which the flag keeps the
    correction calls apart: whatever the events, at most one call is
    outstanding. *)
Definition atMostOneOutstanding (props : Props) (c : Component) : Prop :=
  forall evs, length (pending (dispatchAll props evs c)) <= 1.

(** No blur arrives while a correction call is outstanding. *)
Fixpoint blursWhenSettled (props : Props) (evs : list Event) (c : Component) : Prop :=
  match evs with
  | [] => True
  | ev :: rest =>
      (ev = Blur -> pending c = []) /\
      blursWhenSettled props rest (dispatch props ev c)
  end.

(** The reading of the specification under which a line break on item 9
    of a nine-item list always gives a tenth item with the cursor right
    after its ordinal: line 9 of the new text is numbered 10, and the
    pending cursor is the offset of that line plus the four characters of
    its prefix. *)
Definition repositionsOnTenthItem (currentValue : jsstring) (cursor : nat) : Prop :=
  let f := fst (onKeyDown Enter (mkField currentValue cursor None false [] 0)) in
  exists content,
    nth_error (split (value f)) 9 = Some (numbered 10 content) /\
    cursorPosition f =
      Some (length (join (firstn 9 (split (value f)))) + 1
            + length (lit "10. "%string)).

(** A list of nine one-letter items, and the same list with two letters
    in its item 9. *)
Definition nineItems : jsstring :=
  join (map lit ["1. a"; "2. b"; "3. c"; "4. d"; "5. e";
                 "6. f"; "7. g"; "8. h"; "9. i"]%string).

Definition nineItemsLong : jsstring :=
  join (map lit ["1. a"; "2. b"; "3. c"; "4. d"; "5. e";
                 "6. f"; "7. g"; "8. h"; "9. ij"]%string).

(** The test of [handleBlur] that lets the correction call start. *)
Definition startsCorrection (props : Props) (currentValue : jsstring) : bool :=
  onAutoCorrect props && negb (readOnly props)
  && (0 <? length (trim (reformatTextToNumberedList currentValue))).

(** [if (currentValue !== newValue) triggerChange(e, newValue)] on the
    state. *)
Definition commitIfDiffers (currentValue newValue : jsstring) (f : Field) : Field :=
  if JS.eqb currentValue newValue then f else applyEffect (OnChange newValue) f.

(** An outstanding call whose handler, whatever the outcome, runs to its
    end and leaves the flag down. *)
Definition finishes (call : Suspended) : Prop :=
  forall outcome f,
    snd (settle call outcome f) = None /\
    isCorrecting (fst (settle call outcome f)) = false.

(** The outstanding calls are those of the blur handler, and the flag is
    up only while one of them is outstanding. *)
Definition flagInvariant (c : Component) : Prop :=
  Forall finishes (pending c)
  /\ (isCorrecting (field c) = true -> pending c <> []).

(** With no blur during a call: no call and the flag down, or one call
    and the flag up. *)
Definition oneCallInvariant (c : Component) : Prop :=
  Forall finishes (pending c)
  /\ ((pending c = [] /\ isCorrecting (field c) = false)
      \/ (length (pending c) = 1 /\ isCorrecting (field c) = true)).


(* ================================================================== *)
(** * Further notions *)
(* ================================================================== *)

(** The markers of the pattern itself: a run of digits and a full stop,
    an asterisk, a hyphen; no space belongs to them. *)
Inductive patternMarker : jsstring -> Prop :=
| pattern_ordinal ds :
    ds <> [] -> forallb isDigit ds = true -> patternMarker (ds ++ [46%N])
| pattern_asterisk : patternMarker [42%N]
| pattern_hyphen : patternMarker [45%N].

(* ================================================================== *)
(** * The form around the field *)
(* ================================================================== *)

(** ** The correction capability, [correctGrammarAndSpelling] *)

(** How the call [ai.models.generateContent] ends: with a response, whose
    [text] may be undefined, or with an error. *)
Inductive ApiOutcome : Type :=
| ApiResponse (text : option jsstring)
| ApiFailure.

(** The [contents] of the request: the instruction, the text between two
    rules, and the cue for the answer (34 is the quotation mark). *)
Definition promptFor (text : jsstring) : jsstring :=
  lit "Correct the spelling and grammar of the following text. Do not change the meaning or add any new information. Preserve the original formatting, especially if it is a numbered list. Only return the corrected text itself, without any introductory phrases like "%string
    ++ [34%N] ++ lit "Here is the corrected text:"%string ++ [34%N]
    ++ lit "."%string ++ [LF; LF] ++ lit "Original Text:"%string ++ [LF]
    ++ lit "---"%string ++ [LF] ++ text ++ [LF] ++ lit "---"%string
    ++ [LF; LF] ++ lit "Corrected Text:"%string.

(** The body of the asynchronous function: it settles, having written to
    the console or not, or it stops at the request and goes on from its
    outcome. *)
Inductive Capability : Type :=
| Settled (outcome : Outcome) (logged : bool)
| GenerateContent (contents : jsstring) (resume : ApiOutcome -> Capability).

(** [correctedText?.trim() || text]. *)
Definition trimmedOr (correctedText : option jsstring) (text : jsstring) : jsstring :=
  match correctedText with
  | Some t =>
      match trim t with
      | [] => text
      | _ :: _ => trim t
      end
  | None => text
  end.

Definition correctGrammarAndSpelling (text : jsstring) : Capability :=
  if match text with [] => true | _ :: _ => false end
     || (length (trim text) =? 0)
  then Settled (Resolved text) false
  else
    GenerateContent (promptFor text) (fun api =>
      match api with
      | ApiResponse correctedText =>
          Settled (Resolved (trimmedOr correctedText text)) false
      | ApiFailure => Settled (Resolved text) true
      end).

(** The outcome of the capability when every request ends with [api]. *)
Fixpoint settleWith (api : ApiOutcome) (c : Capability) : Outcome :=
  match c with
  | Settled outcome _ => outcome
  | GenerateContent _ resume => settleWith api (resume api)
  end.

(** The props the form gives to a field with the capability:
    [onAutoCorrect] is [undefined] in read-only mode. *)
Definition formProps (isReadOnly : bool) : Props :=
  mkProps (negb isReadOnly) isReadOnly.

(** A blur of a field of the form, with the correction call it may start
    answered by the capability of the form. *)
Definition formBlur (isReadOnly : bool) (api : ApiOutcome) (f : Field) : Field :=
  match onBlur (formProps isReadOnly) f with
  | (f1, Some call) =>
      fst (settle call (settleWith api (correctGrammarAndSpelling (fst call))) f1)
  | (f1, None) => f1
  end.

(** ** The name of the downloaded file *)

(** The class [[a-zA-Z0-9]]. *)
Definition isAlphaNumeric (c : char) : bool :=
  ((48 <=? c) && (c <=? 57) || (65 <=? c) && (c <=? 90)
   || (97 <=? c) && (c <=? 122))%N.

(** [hospitalName.replace(/[^a-zA-Z0-9]/g, '_') || 'Report']: every code
    unit outside the class becomes an underscore (95), and the empty
    result gives way to [Report]. *)
Definition safeHospitalName (hospitalName : jsstring) : jsstring :=
  match map (fun c => if isAlphaNumeric c then c else 95%N) hospitalName with
  | [] => lit "Report"%string
  | c :: s => c :: s
  end.

(** ** The comma-separated values *)

(** [parts.join(sep)]. *)
Fixpoint joinWith (sep : jsstring) (parts : list jsstring) : jsstring :=
  match parts with
  | [] => []
  | part :: rest =>
      match rest with
      | [] => part
      | _ :: _ => part ++ sep ++ joinWith sep rest
      end
  end.

(** The global replacement of the quotation mark (34) by two of them, in
    [formatValue]. *)
Definition escapeQuotes (s : jsstring) : jsstring :=
  flat_map (fun c => if (c =? 34)%N then [34%N; 34%N] else [c]) s.

(** A file as the form reads it: its name and its type. *)
Record File : Type := mkFile {
  fileName : jsstring;
  fileType : jsstring
}.

Section FormValues.

(** Numbers and their conversion to strings are those of JavaScript. *)
Variable JSNumber : Type.
Variable numberToString : JSNumber -> jsstring.

(** The values of the entries of the form data. *)
Inductive FormValue : Type :=
| VNull
| VString (s : jsstring)
| VBoolean (b : bool)
| VNumber (n : JSNumber)
| VFile (file : File)
| VFiles (files : list File).

(** The text [formatValue] puts between the quotation marks, before it
    doubles the marks in it: nothing for [null], the name of a file, the
    names of the files with a comma and a space between them,
    [String(value)] otherwise. *)
Definition valueText (value : FormValue) : jsstring :=
  match value with
  | VNull => []
  | VString s => s
  | VBoolean b => if b then lit "true"%string else lit "false"%string
  | VNumber n => numberToString n
  | VFile file => fileName file
  | VFiles files => joinWith (lit ", "%string) (map fileName files)
  end.

Definition formatValue (value : FormValue) : jsstring :=
  [34%N] ++ escapeQuotes (valueText value) ++ [34%N].

(** [csvContent] for the entries of the form data in the order of
    [Object.keys]. *)
Definition csvContent (data : list (jsstring * FormValue)) : jsstring :=
  let headers := map fst data in
  let headerRow := joinWith [44%N] (map (fun h => [34%N] ++ h ++ [34%N]) headers) in
  let valueRow := joinWith [44%N] (map (fun entry => formatValue (snd entry)) data) in
  headerRow ++ [LF] ++ valueRow.

(** The row of values alone. *)
Definition valueRow (values : list FormValue) : jsstring :=
  joinWith [44%N] (map formatValue values).

End FormValues.

Arguments valueText {JSNumber} numberToString value.
Arguments formatValue {JSNumber} numberToString value.
Arguments csvContent {JSNumber} numberToString data.
Arguments valueRow {JSNumber} numberToString values.

(** Reading a quoted field back, as a reader of comma-separated values
    does: after the opening mark a doubled mark is a mark, and a single
    mark ends the field. *)
Fixpoint readQuoted (s : jsstring) : option (jsstring * jsstring) :=
  match s with
  | [] => None
  | c :: s' =>
      if (c =? 34)%N then
        match s' with
        | d :: s'' =>
            if (d =? 34)%N then
              match readQuoted s'' with
              | Some (text, rest) => Some (34%N :: text, rest)
              | None => None
              end
            else Some ([], s')
        | [] => Some ([], [])
        end
      else
        match readQuoted s' with
        | Some (text, rest) => Some (c :: text, rest)
        | None => None
        end
  end.

(** Reading a row of quoted fields with commas between them. *)
Fixpoint readRow (fuel : nat) (s : jsstring) : option (list jsstring) :=
  match fuel, s with
  | S fuel', c :: s' =>
      if (c =? 34)%N then
        match readQuoted s' with
        | Some (text, []) => Some [text]
        | Some (text, d :: rest) =>
            if (d =? 44)%N then
              match readRow fuel' rest with
              | Some texts => Some (text :: texts)
              | None => None
              end
            else None
        | None => None
        end
      else None
  | _, _ => None
  end.

(** ** The hospital search *)

Record Hospital : Type := mkHospital {
  name : jsstring;
  zohoCode : jsstring
}.

(** [s.startsWith(sub)] and [s.includes(sub)]. *)
Fixpoint startsWith (s sub : jsstring) : bool :=
  match sub, s with
  | [], _ => true
  | d :: sub', c :: s' => (c =? d)%N && startsWith s' sub'
  | _ :: _, [] => false
  end.

Fixpoint includes (s sub : jsstring) : bool :=
  startsWith s sub
  || match s with
     | [] => false
     | _ :: s' => includes s' sub
     end.

Section HospitalSearch.

(** [toLowerCase] is that of JavaScript; [hospitals] is the table of the
    form. *)
Variable toLowerCase : jsstring -> jsstring.
Variable hospitals : list Hospital.

(** The two entries of the form data the search writes. *)
Record HospitalEntry : Type := mkHospitalEntry {
  hospitalName : jsstring;
  entryZohoCode : jsstring
}.

(** [hospitals.find(h => h.name.toLowerCase() === newSearch.toLowerCase())]. *)
Definition matchedHospital (newSearch : jsstring) : option Hospital :=
  find (fun h => JS.eqb (toLowerCase (name h)) (toLowerCase newSearch)) hospitals.

(** The [onChange] of the search input. *)
Definition searchChange (newSearch : jsstring) : HospitalEntry :=
  mkHospitalEntry newSearch
    match matchedHospital newSearch with
    | Some h => zohoCode h
    | None => []
    end.

(** [handleHospitalSelect]. *)
Definition handleHospitalSelect (hospital : Hospital) : HospitalEntry :=
  mkHospitalEntry (name hospital) (zohoCode hospital).

(** [filteredHospitals]. *)
Definition filteredHospitals (entry : HospitalEntry) : list Hospital :=
  let searchLower := toLowerCase (hospitalName entry) in
  match searchLower with
  | [] => hospitals
  | _ :: _ =>
      filter (fun h => includes (toLowerCase (name h)) searchLower) hospitals
  end.

End HospitalSearch.

(** A row read with fuel enough for all its characters. *)
Definition readCsvRow (s : jsstring) : option (list jsstring) :=
  readRow (length s) s.

(** ** The file inputs *)

Section FormData.

Variable JSNumber : Type.

(** The form data as the entries it has under their keys; [setEntry] is
    the update [{...prev, [name]: value}]. *)
Definition FormData : Type := jsstring -> option (FormValue JSNumber).

Definition setEntry (name : jsstring) (value : FormValue JSNumber)
    (prev : FormData) : FormData :=
  fun key => if JS.eqb key name then Some value else prev key.

(** [handleFileChange] on the name of the input, its files ([None] for
    [null]) and its [multiple] attribute: the new form data, and whether
    the alert about the ten photos was shown.  A single input takes
    [selectedFiles[0]]. *)
Definition handleFileChange (name : jsstring) (files : option (list File))
    (isMultiple : bool) (prev : FormData) : FormData * bool :=
  match files with
  | Some (file :: others) =>
      let selected := file :: others in
      let tooMany :=
        JS.eqb name (lit "trainingPhotos"%string) && (10 <? length selected) in
      let selectedFiles := if tooMany then firstn 10 selected else selected in
      (setEntry name
         (if isMultiple then VFiles JSNumber selectedFiles
          else match selectedFiles with
               | first :: _ => VFile JSNumber first
               | [] => VNull JSNumber
               end)
         prev,
       tooMany)
  | _ =>
      (setEntry name (if isMultiple then VFiles JSNumber [] else VNull JSNumber) prev,
       false)
  end.

End FormData.

Arguments setEntry {JSNumber} name value prev.
Arguments handleFileChange {JSNumber} name files isMultiple prev.

(** ** Notions for the readings of the specification *)

(** The text from the cursor to the end of the line the cursor is on. *)
Definition restOfLine (currentValue : jsstring) (cursor : nat) : jsstring :=
  hd [] (split (substringFrom currentValue cursor)).


(** An event that is not typing. *)
Definition notInput (ev : Event) : Prop :=
  match ev with
  | Input _ _ => False
  | _ => True
  end.
(* ================================================================== *)
(** * Facts about strings *)
(* ================================================================== *)

Lemma eqb_spec (s t : jsstring) : JS.eqb s t = true <-> s = t.
Proof.
  revert t; induction s as [|c s IH]; intros [|d t]; simpl;
    try (split; [discriminate | congruence]); try tauto.
  rewrite andb_true_iff, N.eqb_eq, IH. split.
  - intros [-> ->]; reflexivity.
  - intros [= -> ->]; auto.
Qed.

Lemma eqb_refl (s : jsstring) : JS.eqb s s = true.
Proof. apply eqb_spec; reflexivity. Qed.

Lemma eqb_neq (s t : jsstring) : JS.eqb s t = false <-> s <> t.
Proof.
  rewrite <- eqb_spec. destruct (JS.eqb s t); split; congruence.
Qed.

Lemma takeWhile_dropWhile p s : takeWhile p s ++ dropWhile p s = s.
Proof.
  induction s as [|c s IH]; simpl; [reflexivity|].
  destruct (p c); simpl; [rewrite IH|]; reflexivity.
Qed.

Lemma dropWhile_In p s x : In x (dropWhile p s) -> In x s.
Proof.
  induction s as [|c s IH]; simpl; [tauto|].
  destruct (p c); simpl; tauto.
Qed.

Lemma dropWhile_app_all p s t :
  forallb p s = true -> dropWhile p (s ++ t) = dropWhile p t.
Proof.
  induction s as [|c s IH]; simpl; [reflexivity|].
  destruct (p c); simpl; [assumption | discriminate].
Qed.

Lemma dropWhile_head p s c t : dropWhile p s = c :: t -> p c = false.
Proof.
  induction s as [|d s IH]; simpl; [discriminate|].
  destruct (p d) eqn:E; [assumption|]. intros [= -> _]; assumption.
Qed.

Lemma dropWhile_stop p c s : p c = false -> dropWhile p (c :: s) = c :: s.
Proof. intros H; simpl; rewrite H; reflexivity. Qed.

Lemma dropWhile_idem p s : dropWhile p (dropWhile p s) = dropWhile p s.
Proof.
  destruct (dropWhile p s) as [|c t] eqn:E; [reflexivity|].
  apply dropWhile_stop, (dropWhile_head _ _ _ _ E).
Qed.

Lemma takeWhile_all p s : forallb p (takeWhile p s) = true.
Proof.
  induction s as [|c s IH]; simpl; [reflexivity|].
  destruct (p c) eqn:E; simpl; [rewrite E|]; auto.
Qed.

Lemma takeWhile_app_stop p s c t :
  forallb p s = true -> p c = false -> takeWhile p (s ++ c :: t) = s.
Proof.
  induction s as [|d s IH]; simpl; intros Hs Hc.
  - rewrite Hc; reflexivity.
  - destruct (p d); simpl in *; [f_equal; auto | discriminate].
Qed.

Lemma dropWhile_app_stop p s c t :
  forallb p s = true -> p c = false -> dropWhile p (s ++ c :: t) = c :: t.
Proof.
  intros Hs Hc. rewrite dropWhile_app_all by assumption.
  apply dropWhile_stop; assumption.
Qed.

(** ** Trimming *)

Lemma trimStart_In s x : In x (trimStart s) -> In x s.
Proof. apply dropWhile_In. Qed.

Lemma trimEnd_In s x : In x (trimEnd s) -> In x s.
Proof.
  unfold trimEnd. rewrite <- in_rev. intros H.
  apply in_rev, trimStart_In, H.
Qed.

Lemma trim_In s x : In x (trim s) -> In x s.
Proof. intros H. apply trimStart_In, trimEnd_In, H. Qed.

(** A string that ends in a character that is not white space is not
    touched by [trimEnd]. *)
Lemma trimEnd_snoc s c : isWhiteSpace c = false -> trimEnd (s ++ [c]) = s ++ [c].
Proof.
  intros H. unfold trimEnd, trimStart. rewrite rev_unit.
  rewrite dropWhile_stop by assumption.
  change (c :: rev s) with ([c] ++ rev s). rewrite rev_app_distr, rev_involutive.
  reflexivity.
Qed.

Lemma trimEnd_snoc_ws s c : isWhiteSpace c = true -> trimEnd (s ++ [c]) = trimEnd s.
Proof.
  intros H. unfold trimEnd, trimStart. rewrite rev_unit. simpl. rewrite H.
  reflexivity.
Qed.

(** What [trimEnd] leaves is empty or ends in a character that is not
    white space. *)
Lemma trimEnd_shape s :
  trimEnd s = [] \/ exists t c, trimEnd s = t ++ [c] /\ isWhiteSpace c = false.
Proof.
  unfold trimEnd, trimStart.
  destruct (dropWhile isWhiteSpace (rev s)) as [|c t] eqn:E; [left; reflexivity|].
  right. exists (rev t), c. split; [reflexivity|].
  apply (dropWhile_head _ _ _ _ E).
Qed.

Lemma trimEnd_idem s : trimEnd (trimEnd s) = trimEnd s.
Proof.
  unfold trimEnd, trimStart. rewrite rev_involutive, dropWhile_idem. reflexivity.
Qed.

(** [trimEnd] keeps the first character of what it leaves: it works at
    the other end. *)
Lemma trimEnd_cons c s :
  trimEnd (c :: s) = match trimEnd s with
                     | [] => if isWhiteSpace c then [] else [c]
                     | _ :: _ => c :: trimEnd s
                     end.
Proof.
  induction s as [|d s IH] using rev_ind.
  - simpl. unfold trimEnd, trimStart; simpl. destruct (isWhiteSpace c); reflexivity.
  - change (c :: s ++ [d]) with ((c :: s) ++ [d]).
    destruct (isWhiteSpace d) eqn:Ed.
    + rewrite !trimEnd_snoc_ws by assumption. exact IH.
    + rewrite !trimEnd_snoc by assumption.
      destruct s; reflexivity.
Qed.

Lemma trimEnd_head c s t : trimEnd s = c :: t -> exists s', s = c :: s'.
Proof.
  destruct s as [|d s]; [discriminate|].
  rewrite trimEnd_cons. destruct (trimEnd s).
  - destruct (isWhiteSpace d); [discriminate|]. intros [= -> _]; eauto.
  - intros [= -> _]; eauto.
Qed.

(** The trimmed string starts with a character that is not white space. *)
Lemma trim_head c t s : trim s = c :: t -> isWhiteSpace c = false.
Proof.
  unfold trim. intros H. destruct (trimEnd_head _ _ _ H) as [s' Hs'].
  apply (dropWhile_head _ _ _ _ Hs').
Qed.

(* ================================================================== *)
(** * Facts about lines: [split] and [join] *)
(* ================================================================== *)

Lemma split_nonnil s : split s <> [].
Proof.
  destruct s as [|c s]; simpl; [discriminate|].
  destruct (c =? LF)%N; [discriminate|].
  destruct (split s); discriminate.
Qed.

Lemma split_noLF s : Forall noLF (split s).
Proof.
  induction s as [|c s IH]; simpl.
  - constructor; [intros []|constructor].
  - destruct (c =? LF)%N eqn:Ec.
    + constructor; [intros []|assumption].
    + destruct (split s) as [|l ls].
      * constructor; [|constructor]. intros [->|[]]. now rewrite N.eqb_refl in Ec.
      * apply Forall_cons_iff in IH. destruct IH as [Hl Hls].
        constructor; [|assumption].
        intros [->|Hin]; [now rewrite N.eqb_refl in Ec | exact (Hl Hin)].
Qed.

Lemma split_one s : noLF s -> split s = [s].
Proof.
  induction s as [|c s IH]; intros H; simpl; [reflexivity|].
  destruct (c =? LF)%N eqn:Ec.
  - apply N.eqb_eq in Ec. elim H. left; auto.
  - rewrite IH; [reflexivity|]. intros Hin; apply H; right; assumption.
Qed.

(** Splitting a text with a line feed in it: the lines of the part before
    followed by the lines of the part after. *)
Lemma split_app a b : split (a ++ LF :: b) = split a ++ split b.
Proof.
  induction a as [|c a IH]; [reflexivity|].
  simpl. destruct (c =? LF)%N.
  - rewrite IH; reflexivity.
  - rewrite IH. destruct (split a) as [|l ls] eqn:E; [elim (split_nonnil _ E)|].
    reflexivity.
Qed.

Lemma join_cons l l' ls : join (l :: l' :: ls) = l ++ LF :: join (l' :: ls).
Proof. reflexivity. Qed.

Lemma join_split s : join (split s) = s.
Proof.
  induction s as [|c s IH]; [reflexivity|].
  simpl. destruct (c =? LF)%N eqn:Ec.
  - apply N.eqb_eq in Ec; subst c.
    destruct (split s) as [|l ls] eqn:E; [elim (split_nonnil _ E)|].
    rewrite join_cons, IH; reflexivity.
  - destruct (split s) as [|l ls] eqn:E; [elim (split_nonnil _ E)|].
    destruct ls as [|l' ls].
    + simpl in *. subst; reflexivity.
    + rewrite join_cons. rewrite join_cons in IH. rewrite <- IH. reflexivity.
Qed.

Lemma split_join ls : ls <> [] -> Forall noLF ls -> split (join ls) = ls.
Proof.
  induction ls as [|l ls IH]; [congruence|]. intros _ H.
  apply Forall_cons_iff in H. destruct H as [Hl Hls].
  destruct ls as [|l' ls].
  - simpl. apply split_one; assumption.
  - rewrite join_cons, split_app, split_one by assumption.
    rewrite IH; [reflexivity | discriminate | assumption].
Qed.

Lemma length_join_cons l ls :
  ls <> [] -> length (join (l :: ls)) = length l + 1 + length (join ls).
Proof.
  destruct ls as [|l' ls]; [congruence|]. intros _.
  rewrite join_cons, length_app. simpl. lia.
Qed.

(* ================================================================== *)
(** * Facts about the counter and the line callback *)
(* ================================================================== *)

Lemma charsOfUint_digits d : forallb isDigit (charsOfUint d) = true.
Proof. induction d; simpl; auto. Qed.

Lemma charsOfUint_nonnil d : d <> Decimal.Nil -> charsOfUint d <> [].
Proof. destruct d; simpl; congruence. Qed.

Lemma toString_digits n : forallb isDigit (toString n) = true.
Proof. apply charsOfUint_digits. Qed.

Lemma toString_nonnil n : toString n <> [].
Proof.
  apply charsOfUint_nonnil.
  rewrite <- (DecimalNat.Unsigned.of_to n) at 1.
  rewrite DecimalNat.Unsigned.to_of.
  apply DecimalFacts.unorm_nonnil.
Qed.

Lemma isDigit_not_ws c : isDigit c = true -> isWhiteSpace c = false.
Proof.
  unfold isDigit, isWhiteSpace. intros H.
  apply andb_true_iff in H. destruct H as [H1 H2].
  apply N.leb_le in H1. apply N.leb_le in H2.
  repeat match goal with
  | |- orb _ _ = false => apply orb_false_iff; split
  | |- andb _ _ = false => apply andb_false_iff
  end;
  try (apply N.eqb_neq; lia);
  try (right; apply N.leb_gt; lia); try (left; apply N.leb_gt; lia).
Qed.

Lemma isDigit_not_LF c : isDigit c = true -> c <> LF.
Proof.
  unfold isDigit, LF. intros H ->. discriminate.
Qed.

Lemma digits_noLF s : forallb isDigit s = true -> noLF s.
Proof.
  intros H Hin. rewrite forallb_forall in H.
  exact (isDigit_not_LF _ (H _ Hin) eq_refl).
Qed.

(* ================================================================== *)
(** * Facts about the patterns *)
(* ================================================================== *)

Section Runs.

Variable p : char -> bool.
Variable k : jsstring -> option jsstring.

(** A greedy run stops where the class stops when the continuation
    accepts there. *)
Lemma many_accepts s :
  k (dropWhile p s) <> None -> many p s k = k (dropWhile p s).
Proof.
  induction s as [|c s IH]; simpl; [reflexivity|].
  destruct (p c); [|reflexivity].
  intros H. rewrite (IH H). destruct (k (dropWhile p s)); congruence.
Qed.

(** Giving characters of the class back does not help a continuation
    that refuses every text starting in the class. *)
Lemma many_longest s :
  (forall c s', p c = true -> k (c :: s') = None) ->
  many p s k = k (dropWhile p s).
Proof.
  intros Hk. induction s as [|c s IH]; simpl; [reflexivity|].
  destruct (p c) eqn:Ec; [|reflexivity].
  rewrite IH. destruct (k (dropWhile p s)); [reflexivity|].
  apply Hk; assumption.
Qed.

End Runs.

Lemma spaces_then_done s :
  exec spaces s (fun rest => Some rest) = Some (dropWhile isWhiteSpace s).
Proof. apply many_accepts. discriminate. Qed.

(** A run of digits and a full stop in front of a continuation. *)
Lemma digits_stop s k :
  exec (Seq digits (chr 46)) s k =
    match takeWhile isDigit s, dropWhile isDigit s with
    | _ :: _, c :: rest => if (c =? 46)%N then k rest else None
    | _, _ => None
    end.
Proof.
  destruct s as [|d s]; [reflexivity|].
  cbn [exec digits chr takeWhile dropWhile].
  destruct (isDigit d) eqn:Ed; [|reflexivity].
  rewrite many_longest.
  - destruct (dropWhile isDigit s) as [|c rest]; reflexivity.
  - intros c s' Hc. destruct (c =? 46)%N eqn:E; [|reflexivity].
    apply N.eqb_eq in E. subst c. discriminate Hc.
Qed.

(** A text that starts with a digit does not start with an asterisk or a
    hyphen. *)
Lemma digit_not_bullet c s k :
  isDigit c = true -> exec (Alt (chr 42) (chr 45)) (c :: s) k = None.
Proof.
  intros Hc. cbn [exec chr].
  destruct (c =? 42)%N eqn:E1;
    [apply N.eqb_eq in E1; subst c; discriminate Hc|].
  destruct (c =? 45)%N eqn:E2;
    [apply N.eqb_eq in E2; subst c; discriminate Hc|]. reflexivity.
Qed.

Lemma takeWhile_cons_head p s c t : takeWhile p s = c :: t -> exists s', s = c :: s' /\ p c = true.
Proof.
  destruct s as [|d s]; [discriminate|]. simpl.
  destruct (p d) eqn:E; [|discriminate]. intros [= -> _]. eauto.
Qed.

Lemma exec_markerPattern s :
  exec markerPattern s (fun rest => Some rest) =
    match matchMarker s with
    | Some rest => Some (dropWhile isWhiteSpace rest)
    | None => None
    end.
Proof.
  unfold markerPattern, matchMarker.
  change (exec (Seq ?a spaces) s ?k)
    with (exec a s (fun s' => exec spaces s' k)).
  change (exec (Alt ?a ?b) s ?k)
    with (match exec a s k with Some rest => Some rest | None => exec b s k end).
  rewrite digits_stop.
  destruct (takeWhile isDigit s) as [|d ds] eqn:Et.
  - destruct s as [|c s']; [reflexivity|].
    cbn [exec chr].
    rewrite spaces_then_done.
    destruct (c =? 42)%N; cbn [orb]; [reflexivity|].
    destruct (c =? 45)%N; reflexivity.
  - destruct (takeWhile_cons_head _ _ _ _ Et) as (s' & -> & Hd).
    destruct (dropWhile isDigit (d :: s')) as [|c rest].
    + apply digit_not_bullet; assumption.
    + destruct (c =? 46)%N.
      * rewrite spaces_then_done. reflexivity.
      * apply digit_not_bullet; assumption.
Qed.

(** [replace] with the marker pattern, in closed form. *)
Lemma stripMarker_closed s :
  stripMarker s =
    match matchMarker s with
    | Some rest => dropWhile isWhiteSpace rest
    | None => s
    end.
Proof.
  unfold stripMarker, matchAtStart. rewrite exec_markerPattern.
  destruct (matchMarker s); reflexivity.
Qed.

(** [match] with the prefix pattern, in closed form. *)
Lemma matchOrdinalPrefix_closed s : matchOrdinalPrefix s = ordinalPrefix s.
Proof.
  unfold matchOrdinalPrefix, matchAtStart, ordinalPrefixPattern, ordinalPrefix.
  change (exec (Seq ?a spaces) s ?k)
    with (exec a s (fun s' => exec spaces s' k)).
  rewrite digits_stop.
  pose proof (takeWhile_dropWhile isDigit s) as Hs.
  destruct (takeWhile isDigit s) as [|d ds]; [reflexivity|].
  destruct (dropWhile isDigit s) as [|c rest]; [reflexivity|].
  destruct (c =? 46)%N; [|reflexivity].
  rewrite spaces_then_done. f_equal.
  pose proof (takeWhile_dropWhile isWhiteSpace rest) as Hr.
  set (m := (d :: ds) ++ [c] ++ takeWhile isWhiteSpace rest).
  assert (E : s = m ++ dropWhile isWhiteSpace rest).
  { unfold m. rewrite <- Hs. rewrite <- Hr at 1.
    rewrite <- !app_assoc. reflexivity. }
  rewrite E at 1 2. rewrite length_app.
  replace (length m + length (dropWhile isWhiteSpace rest)
           - length (dropWhile isWhiteSpace rest)) with (length m) by lia.
  rewrite firstn_app, firstn_all, Nat.sub_diag, firstn_0. apply app_nil_r.
Qed.

(* ================================================================== *)
(** * Facts about the marker pattern *)
(* ================================================================== *)

(** When the pattern matches, the string is a marker followed by the rest:
    a run of digits and a full stop, an asterisk, or a hyphen. *)
Lemma matchMarker_Some s rest :
  matchMarker s = Some rest ->
  exists m, s = m ++ rest /\
    ((exists ds, ds <> [] /\ forallb isDigit ds = true /\ m = ds ++ [46%N])
     \/ m = [42%N] \/ m = [45%N]).
Proof.
  unfold matchMarker. intros H.
  destruct (takeWhile isDigit s) as [|d ds] eqn:Et.
  - destruct s as [|c s']; [discriminate|].
    destruct ((c =? 42) || (c =? 45))%N eqn:Ec; [|discriminate].
    injection H as <-. exists [c]. split; [reflexivity|]. right.
    apply orb_true_iff in Ec. destruct Ec as [Ec|Ec]; apply N.eqb_eq in Ec; subst; auto.
  - destruct (dropWhile isDigit s) as [|c r] eqn:Ed; [discriminate|].
    destruct (c =? 46)%N eqn:Ec; [|discriminate].
    apply N.eqb_eq in Ec. subst c. injection H as <-.
    exists ((d :: ds) ++ [46%N]). split.
    + rewrite <- app_assoc. simpl app at 2. rewrite <- Ed, <- Et.
      symmetry; apply takeWhile_dropWhile.
    + left. exists (d :: ds). split; [discriminate|]. split; [|reflexivity].
      rewrite <- Et. apply takeWhile_all.
Qed.

Lemma matchMarker_digits ds rest :
  ds <> [] -> forallb isDigit ds = true ->
  matchMarker (ds ++ 46%N :: rest) = Some rest.
Proof.
  intros Hne Hds. unfold matchMarker.
  rewrite takeWhile_app_stop, dropWhile_app_stop by (assumption || reflexivity).
  destruct ds; [congruence|]. reflexivity.
Qed.

Lemma stripMarker_In s x : In x (stripMarker s) -> In x s.
Proof.
  rewrite stripMarker_closed. destruct (matchMarker s) as [rest|] eqn:E; [|tauto].
  intros H. apply dropWhile_In in H.
  destruct (matchMarker_Some _ _ E) as (m & -> & _).
  apply in_or_app; right; assumption.
Qed.

(** A suffix of a string that [trimEnd] leaves alone is left alone too. *)
Lemma trimEnd_fixed_suffix a b : trimEnd (a ++ b) = a ++ b -> trimEnd b = b.
Proof.
  destruct b as [|c b] using rev_ind; [reflexivity|]. clear IHb. intros H.
  destruct (trimEnd_shape (a ++ b ++ [c])) as [E|(t & d & E & Hd)].
  - rewrite H in E. destruct a; destruct b; discriminate.
  - rewrite H, app_assoc in E. apply app_inj_tail in E. destruct E as [_ ->].
    apply trimEnd_snoc; assumption.
Qed.

Lemma dropWhile_suffix p s : exists a, s = a ++ dropWhile p s.
Proof. exists (takeWhile p s). symmetry; apply takeWhile_dropWhile. Qed.

Lemma trim_trimEnd_fixed s : trimEnd (trim s) = trim s.
Proof. apply trimEnd_idem. Qed.

(** The content kept of a line has no white space at either end. *)
Lemma content_trimmed line :
  trimStart (stripMarker (trim line)) = stripMarker (trim line) /\
  trimEnd (stripMarker (trim line)) = stripMarker (trim line).
Proof.
  rewrite stripMarker_closed.
  destruct (matchMarker (trim line)) as [rest|] eqn:E.
  - split; [apply dropWhile_idem|].
    destruct (matchMarker_Some _ _ E) as (m & Hm & _).
    destruct (dropWhile_suffix isWhiteSpace rest) as [a Ha].
    apply (trimEnd_fixed_suffix (m ++ a)).
    rewrite <- app_assoc, <- Ha, <- Hm. apply trim_trimEnd_fixed.
  - split; [|apply trim_trimEnd_fixed].
    destruct (trim line) as [|c t] eqn:Et; [reflexivity|].
    apply dropWhile_stop, (trim_head _ _ _ Et).
Qed.

(** ** The numbered line *)

Lemma toString_head k : exists d ds, toString k = d :: ds /\ isDigit d = true.
Proof.
  pose proof (toString_nonnil k) as Hne. pose proof (toString_digits k) as Hd.
  destruct (toString k) as [|d ds]; [congruence|].
  exists d, ds. simpl in Hd. apply andb_true_iff in Hd. tauto.
Qed.

Lemma trimStart_numbered k content : trimStart (numbered k content) = numbered k content.
Proof.
  unfold numbered. destruct (toString_head k) as (d & ds & -> & Hd).
  apply dropWhile_stop, isDigit_not_ws, Hd.
Qed.

(** Trimming a numbered line takes the space after the full stop away when
    nothing follows it, and nothing otherwise. *)
Lemma trim_numbered k content :
  trimEnd content = content ->
  trim (numbered k content) =
    toString k ++ 46%N :: match content with [] => [] | _ :: _ => 32%N :: content end.
Proof.
  intros Hc. unfold trim. rewrite trimStart_numbered. unfold numbered.
  destruct content as [|c content] using rev_ind.
  - change (toString k ++ lit ". "%string ++ []) with (toString k ++ [46%N] ++ [32%N]).
    rewrite app_assoc, trimEnd_snoc_ws by reflexivity.
    apply trimEnd_snoc; reflexivity.
  - clear IHcontent.
    assert (Hw : isWhiteSpace c = false).
    { destruct (trimEnd_shape (content ++ [c])) as [E|(t & d & E & Hd)].
      - rewrite Hc in E. destruct content; discriminate.
      - rewrite Hc in E. apply app_inj_tail in E. destruct E as [_ ->]. exact Hd. }
    change (lit ". "%string) with [46%N; 32%N].
    replace (toString k ++ [46%N; 32%N] ++ content ++ [c])
      with ((toString k ++ [46%N; 32%N] ++ content) ++ [c])
      by (rewrite <- !app_assoc; reflexivity).
    rewrite trimEnd_snoc by assumption.
    rewrite <- !app_assoc. destruct content; reflexivity.
Qed.

Lemma numbered_not_blank k content :
  trimEnd content = content -> isBlank (numbered k content) = false.
Proof.
  intros Hc. unfold isBlank. rewrite trim_numbered by assumption.
  destruct (toString_head k) as (d & ds & -> & _). reflexivity.
Qed.

(** The pattern removes exactly the prefix the Reformatter wrote. *)
Lemma stripMarker_numbered k content :
  trimStart content = content -> trimEnd content = content ->
  stripMarker (trim (numbered k content)) = content.
Proof.
  intros Hs He. rewrite trim_numbered by assumption.
  rewrite stripMarker_closed.
  rewrite matchMarker_digits by (apply toString_nonnil || apply toString_digits).
  destruct content as [|c content]; [reflexivity|].
  simpl. exact Hs.
Qed.

Lemma numberLine_blank counter line :
  isBlank line = true -> numberLine counter line = ([], counter).
Proof. unfold numberLine, isBlank. intros ->. reflexivity. Qed.

Lemma numberLine_nonblank counter line :
  isBlank line = false ->
  numberLine counter line = (numbered counter (stripMarker (trim line)), S counter).
Proof. unfold numberLine, isBlank. intros ->. reflexivity. Qed.

(** The callback gives the same line and the same counter on its own
    result. *)
Lemma numberLine_idem counter line :
  numberLine counter (fst (numberLine counter line)) = numberLine counter line.
Proof.
  destruct (isBlank line) eqn:Eb.
  - rewrite (numberLine_blank counter line) by assumption. reflexivity.
  - rewrite (numberLine_nonblank counter line) by assumption. cbn [fst].
    destruct (content_trimmed line) as [Hs He].
    rewrite numberLine_nonblank by (apply numbered_not_blank; assumption).
    rewrite stripMarker_numbered by assumption. reflexivity.
Qed.

Lemma numberLine_noLF counter line :
  noLF line -> noLF (fst (numberLine counter line)).
Proof.
  intros H. destruct (isBlank line) eqn:Eb.
  - rewrite numberLine_blank by assumption. intros [].
  - rewrite numberLine_nonblank by assumption. cbn [fst]. unfold numbered.
    intros Hin. apply in_app_or in Hin. destruct Hin as [Hin|Hin].
    + exact (digits_noLF _ (toString_digits counter) Hin).
    + apply in_app_or in Hin. destruct Hin as [Hin|Hin].
      * simpl in Hin. unfold LF in Hin.
        destruct Hin as [Hin|[Hin|[]]]; discriminate.
      * apply H, trim_In, stripMarker_In, Hin.
Qed.

(** The blankness of a line is kept by the callback. *)
Lemma numberLine_isBlank counter line :
  isBlank (fst (numberLine counter line)) = isBlank line.
Proof.
  destruct (isBlank line) eqn:Eb.
  - rewrite numberLine_blank by assumption. reflexivity.
  - rewrite numberLine_nonblank by assumption. cbn [fst].
    apply numbered_not_blank, content_trimmed.
Qed.

(* ================================================================== *)
(** * Facts about [mapLines] and the Reformatter *)
(* ================================================================== *)

Lemma mapLines_cons counter line rest :
  mapLines counter (line :: rest) =
    fst (numberLine counter line) :: mapLines (snd (numberLine counter line)) rest.
Proof. simpl. destruct (numberLine counter line); reflexivity. Qed.

Lemma mapLines_length counter lines :
  length (mapLines counter lines) = length lines.
Proof.
  revert counter; induction lines as [|line rest IH]; intros counter;
    [reflexivity|].
  rewrite mapLines_cons. simpl. rewrite IH. reflexivity.
Qed.

Lemma mapLines_idem counter lines :
  mapLines counter (mapLines counter lines) = mapLines counter lines.
Proof.
  revert counter; induction lines as [|line rest IH]; intros counter;
    [reflexivity|].
  rewrite mapLines_cons. rewrite mapLines_cons.
  rewrite numberLine_idem, IH. reflexivity.
Qed.

Lemma mapLines_noLF counter lines :
  Forall noLF lines -> Forall noLF (mapLines counter lines).
Proof.
  revert counter; induction lines as [|line rest IH]; intros counter H;
    [constructor|].
  apply Forall_cons_iff in H. destruct H as [Hl Hrest].
  rewrite mapLines_cons. constructor.
  - apply numberLine_noLF; assumption.
  - apply IH; assumption.
Qed.

Lemma mapLines_isBlank counter lines :
  map isBlank (mapLines counter lines) = map isBlank lines.
Proof.
  revert counter; induction lines as [|line rest IH]; intros counter;
    [reflexivity|].
  rewrite mapLines_cons. simpl. rewrite numberLine_isBlank, IH. reflexivity.
Qed.

Lemma countNonBlank_cons line lines :
  countNonBlank (line :: lines) =
    (if isBlank line then 0 else 1) + countNonBlank lines.
Proof. unfold countNonBlank. simpl. destruct (isBlank line); reflexivity. Qed.

(** The counter the callback sees at line [i] is the start value plus the
    number of non-blank lines before it. *)
Lemma mapLines_nth counter lines i line :
  nth_error lines i = Some line ->
  nth_error (mapLines counter lines) i =
    Some (if isBlank line then []
          else numbered (counter + countNonBlank (firstn i lines))
                        (stripMarker (trim line))).
Proof.
  revert counter i; induction lines as [|l0 rest IH]; intros counter i H.
  - destruct i; discriminate.
  - rewrite mapLines_cons. destruct i as [|i].
    + injection H as ->. simpl nth_error. simpl firstn.
      replace (counter + countNonBlank []) with counter
        by (unfold countNonBlank; simpl; lia).
      destruct (isBlank line) eqn:Eb.
      * rewrite numberLine_blank by assumption. reflexivity.
      * rewrite numberLine_nonblank by assumption. reflexivity.
    + simpl in H. simpl nth_error. rewrite (IH _ _ H).
      simpl firstn. rewrite countNonBlank_cons.
      destruct (isBlank line); [reflexivity|].
      do 2 f_equal.
      destruct (isBlank l0) eqn:E0.
      * rewrite numberLine_blank by assumption. simpl. lia.
      * rewrite numberLine_nonblank by assumption. simpl. lia.
Qed.

(** The lines of the result are the lines the callback produced. *)
Lemma reformat_lines text :
  split (reformatTextToNumberedList text) = mapLines 1 (split text).
Proof.
  destruct text as [|c text]; [reflexivity|].
  unfold reformatTextToNumberedList.
  apply split_join.
  - intros E. apply (f_equal (@length _)) in E.
    rewrite mapLines_length in E.
    apply length_zero_iff_nil in E. exact (split_nonnil _ E).
  - apply mapLines_noLF, split_noLF.
Qed.

Lemma reformat_join_lines text :
  reformatTextToNumberedList text = join (mapLines 1 (split text)).
Proof. destruct text; reflexivity. Qed.

(* ================================================================== *)
(** * The Reformatter: properties of the specification *)
(* ================================================================== *)

(** C1.  Every non-blank line of the input comes out as a fresh ordinal,
    a full stop, a space and the content of the line, at the same line
    index; the ordinal is the 1-based position of the line among the
    non-blank lines, and the content is the trimmed line without its
    marker.  A listed marker (digits with a full stop and a space, an
    asterisk and a space, a hyphen and a space) is removed with the white
    space after it.  On the text of lines [* a], empty, [b], [3. c] the
    result is [1. a], empty, [2. b], [3. c]. *)
Theorem reformat_numbers_non_blank_lines :
  (forall text i line,
      nth_error (split text) i = Some line ->
      isBlank line = false ->
      nth_error (split (reformatTextToNumberedList text)) i =
        Some (toString (ordinal (split text) i) ++ lit ". "%string
                ++ stripMarker (trim line)))
  /\ (forall marker rest,
        listedMarker marker ->
        stripMarker (marker ++ rest) = trimStart rest)
  /\ reformatTextToNumberedList
       (join [lit "* a"%string; []; lit "b"%string; lit "3. c"%string])
     = join [lit "1. a"%string; []; lit "2. b"%string; lit "3. c"%string].
Proof.
  split; [|split].
  - intros text i line Hline Hnb.
    rewrite reformat_lines, (mapLines_nth 1 _ _ _ Hline), Hnb. reflexivity.
  - intros marker rest [ds Hne Hds | | ].
    + rewrite stripMarker_closed.
      change (lit ". "%string) with ([46%N] ++ [32%N]).
      rewrite <- !app_assoc. simpl app at 2.
      rewrite matchMarker_digits by assumption. reflexivity.
    + rewrite stripMarker_closed. reflexivity.
    + rewrite stripMarker_closed. reflexivity.
  - vm_compute. reflexivity.
Qed.

(** The first part of C1 at line 2 of the example text. *)
Lemma reformat_numbers_non_blank_lines_witness :
  nth_error
    (split (reformatTextToNumberedList
              (join [lit "* a"%string; []; lit "b"%string; lit "3. c"%string]))) 2
  = Some (lit "2. b"%string).
Proof.
  exact (proj1 reformat_numbers_non_blank_lines
           (join [lit "* a"%string; []; lit "b"%string; lit "3. c"%string])
           2 (lit "b"%string) eq_refl eq_refl).
Defined.

(** C2.  Reformatting the result of the Reformatter changes nothing. *)
Theorem reformat_idempotent text :
  reformatTextToNumberedList (reformatTextToNumberedList text)
  = reformatTextToNumberedList text.
Proof.
  rewrite (reformat_join_lines (reformatTextToNumberedList text)).
  rewrite reformat_lines, mapLines_idem.
  symmetry; apply reformat_join_lines.
Qed.

(** C10.  The result has as many lines as the input, and the empty text
    gives the empty text. *)
Theorem reformat_preserves_line_count :
  (forall text,
      length (split (reformatTextToNumberedList text)) = length (split text))
  /\ reformatTextToNumberedList [] = [].
Proof.
  split; [|reflexivity].
  intros text. rewrite reformat_lines. apply mapLines_length.
Qed.

(** C3, as the specification has it, fails on a line of one space between
    two items: the line comes out empty, not as the space it was. *)
Lemma blank_line_not_verbatim :
  ~ blankLinesVerbatim (join [lit "a"%string; lit " "%string; lit "b"%string]).
Proof.
  intros H. specialize (H 1 (lit " "%string) eq_refl eq_refl).
  vm_compute in H. discriminate H.
Qed.

(** C3, amended.  A blank line (empty, or white space only) comes out as
    the empty line at the same line index, so without a numeral prefix,
    and an empty line comes out as it went in; the lines that are blank in
    the result are those that are blank in the input, so their positions
    and their number are kept. *)
Theorem blank_lines_become_empty text :
  (forall i line,
      nth_error (split text) i = Some line -> isBlank line = true ->
      nth_error (split (reformatTextToNumberedList text)) i = Some [])
  /\ (forall i,
        nth_error (split text) i = Some [] ->
        nth_error (split (reformatTextToNumberedList text)) i = Some [])
  /\ map isBlank (split (reformatTextToNumberedList text))
     = map isBlank (split text)
  /\ length (filter isBlank (split (reformatTextToNumberedList text)))
     = length (filter isBlank (split text)).
Proof.
  assert (Hblank : forall i line,
      nth_error (split text) i = Some line -> isBlank line = true ->
      nth_error (split (reformatTextToNumberedList text)) i = Some []).
  { intros i line Hline Hb.
    rewrite reformat_lines, (mapLines_nth 1 _ _ _ Hline), Hb. reflexivity. }
  assert (Hmap : map isBlank (split (reformatTextToNumberedList text))
                 = map isBlank (split text)).
  { rewrite reformat_lines. apply mapLines_isBlank. }
  repeat split.
  - exact Hblank.
  - intros i Hline. exact (Hblank i [] Hline eq_refl).
  - exact Hmap.
  - assert (Hf : forall ls, length (filter isBlank ls)
                            = length (filter (fun b => b) (map isBlank ls))).
    { induction ls as [|l ls IH]; [reflexivity|].
      simpl. destruct (isBlank l); simpl; rewrite IH; reflexivity. }
    rewrite !Hf, Hmap. reflexivity.
Qed.

(** The amended C3 on the line of one space between two items. *)
Lemma blank_lines_become_empty_witness :
  nth_error
    (split (reformatTextToNumberedList
              (join [lit "a"%string; lit " "%string; lit "b"%string]))) 1
  = Some [].
Proof.
  exact (proj1 (blank_lines_become_empty
                  (join [lit "a"%string; lit " "%string; lit "b"%string]))
           1 (lit " "%string) eq_refl eq_refl).
Defined.

(* ================================================================== *)
(** * Facts about offsets of lines *)
(* ================================================================== *)

Section Offsets.

Variable lines : list jsstring.

Lemma sumBefore_S t :
  sumBefore lines (S t) = sumBefore lines t + (length (nth t lines []) + 1).
Proof. unfold sumBefore. rewrite seq_S, fold_left_app. reflexivity. Qed.

Lemma firstn_snoc_nth t :
  t < length lines -> firstn (S t) lines = firstn t lines ++ [nth t lines []].
Proof.
  revert t. induction lines as [|l ls IH]; intros t Ht; simpl in Ht; [lia|].
  destruct t as [|t]; [reflexivity|].
  change (firstn (S (S t)) (l :: ls)) with (l :: firstn (S t) ls).
  rewrite IH by lia. reflexivity.
Qed.

(** The loop adds up the lengths of the lines before the target and one
    for each of them. *)
Lemma sumBefore_sum t :
  t <= length lines ->
  sumBefore lines t = list_sum (map (@length N) (firstn t lines)) + t.
Proof.
  induction t as [|t IH]; intros Ht; [reflexivity|].
  rewrite sumBefore_S, IH, firstn_snoc_nth by lia.
  rewrite map_app, list_sum_app. simpl. lia.
Qed.

End Offsets.

Lemma length_join ls :
  length (join ls) = list_sum (map (@length N) ls) + (length ls - 1).
Proof.
  induction ls as [|l ls IH]; [reflexivity|].
  destruct ls as [|l' ls]; [simpl; lia|].
  rewrite length_join_cons by discriminate. rewrite IH.
  simpl. lia.
Qed.

Lemma join_app l1 l2 :
  l1 <> [] -> l2 <> [] -> join (l1 ++ l2) = join l1 ++ LF :: join l2.
Proof.
  intros H1 H2. induction l1 as [|a l1 IH]; [congruence|].
  destruct l1 as [|b l1].
  - destruct l2; [congruence|]. reflexivity.
  - change ((a :: b :: l1) ++ l2) with (a :: b :: (l1 ++ l2)).
    rewrite !join_cons.
    change (b :: l1 ++ l2) with ((b :: l1) ++ l2).
    rewrite IH by discriminate. rewrite <- app_assoc. reflexivity.
Qed.

(** A text cut in front of its line [t]. *)
Lemma join_at ls t :
  0 < t < length ls ->
  join ls = join (firstn t ls) ++ LF :: join (skipn t ls).
Proof.
  intros Ht. rewrite <- (firstn_skipn t ls) at 1.
  apply join_app.
  - intros E. apply (f_equal (@length _)) in E.
    rewrite length_firstn in E. simpl in E. lia.
  - intros E. apply (f_equal (@length _)) in E.
    rewrite length_skipn in E. simpl in E. lia.
Qed.

(** The loop ends on the offset of the target line. *)
Lemma sumBefore_offset ls t :
  0 < t <= length ls -> sumBefore ls t = length (join (firstn t ls)) + 1.
Proof.
  intros Ht. rewrite sumBefore_sum, length_join, length_firstn by lia.
  lia.
Qed.

Lemma skipn_nth_cons ls t (l : jsstring) :
  nth_error ls t = Some l -> skipn t ls = l :: skipn (S t) ls.
Proof.
  revert t; induction ls as [|a ls IH]; intros [|t] H; try discriminate.
  - injection H as ->. reflexivity.
  - simpl in H. exact (IH _ H).
Qed.

Lemma join_head l ls : exists tail, join (l :: ls) = l ++ tail.
Proof.
  destruct ls as [|l' ls].
  - exists []. simpl. rewrite app_nil_r. reflexivity.
  - exists (LF :: join (l' :: ls)). reflexivity.
Qed.

(* ================================================================== *)
(** * Facts about the line-break handler *)
(* ================================================================== *)

Lemma textWithNewline_lines v sel :
  split (textWithNewline v sel) = split (firstn sel v) ++ split (skipn sel v).
Proof. unfold textWithNewline, substringTo, substringFrom. apply split_app. Qed.

Lemma length_split_pos s : 1 <= length (split s).
Proof.
  pose proof (split_nonnil s). destruct (split s); [congruence|simpl; lia].
Qed.

(** The target line is always there: the fallback of the handler is not
    reached. *)
Lemma target_exists v sel :
  currentLineIndex v sel + 1
  < length (split (reformatTextToNumberedList (textWithNewline v sel))).
Proof.
  rewrite reformat_lines, mapLines_length, textWithNewline_lines, length_app.
  unfold currentLineIndex, substringTo.
  pose proof (length_split_pos (firstn sel v)).
  pose proof (length_split_pos (skipn sel v)). lia.
Qed.

Lemma takeWhile_nil p s : dropWhile p s = s -> takeWhile p s = [].
Proof.
  destruct s as [|c s]; [reflexivity|]. intros H.
  simpl. rewrite (dropWhile_head _ _ _ _ H). reflexivity.
Qed.

(** The prefix pattern finds exactly the prefix the Reformatter wrote. *)
Lemma matchOrdinalPrefix_numbered k content :
  trimStart content = content ->
  matchOrdinalPrefix (numbered k content) = Some (toString k ++ lit ". "%string).
Proof.
  intros Hc. unfold numbered.
  change (toString k ++ lit ". "%string ++ content)
    with (toString k ++ 46%N :: 32%N :: content).
  rewrite matchOrdinalPrefix_closed. unfold ordinalPrefix.
  rewrite takeWhile_app_stop, dropWhile_app_stop
    by (apply toString_digits || reflexivity).
  destruct (toString_head k) as (d & ds & -> & _).
  rewrite N.eqb_refl. simpl takeWhile.
  rewrite (takeWhile_nil _ _ Hc). reflexivity.
Qed.

Lemma prefixLength_numbered k content :
  trimStart content = content ->
  prefixLength (numbered k content) = length (toString k ++ lit ". "%string).
Proof.
  intros Hc. unfold prefixLength.
  rewrite matchOrdinalPrefix_numbered by assumption. reflexivity.
Qed.

(** A line of the result is empty or an ordinal and a content without
    white space at its ends. *)
Lemma reformat_line_shape text i out :
  nth_error (split (reformatTextToNumberedList text)) i = Some out ->
  out = [] \/
  exists k content,
    out = numbered k content /\ trimStart content = content
    /\ trimEnd content = content.
Proof.
  rewrite reformat_lines. intros H.
  assert (Hi : i < length (split text)).
  { rewrite <- (mapLines_length 1). apply nth_error_Some. congruence. }
  destruct (nth_error (split text) i) as [line|] eqn:El;
    [|apply nth_error_None in El; lia].
  rewrite (mapLines_nth 1 _ _ _ El) in H. injection H as <-.
  destruct (isBlank line); [left; reflexivity|].
  right. eexists _, _. split; [reflexivity|]. apply content_trimmed.
Qed.

Lemma run_andThen h k f :
  run (andThen h k) f =
    match run h f with
    | (f', None) => run k f'
    | (f', Some (text, resume)) =>
        (f', Some (text, fun outcome => andThen (resume outcome) k))
    end.
Proof.
  revert f; induction h as [|e next IH|text resume IH]; intros f; simpl; auto.
Qed.

(** What the line-break keystroke does to the field. *)
Lemma onKeyDown_Enter f :
  onKeyDown Enter f =
    (let finalValue :=
       reformatTextToNumberedList (textWithNewline (value f) (selectionStart f)) in
     mkField finalValue (selectionStart f)
       (Some (newCursorPosition finalValue
                (currentLineIndex (value f) (selectionStart f) + 1)))
       (isCorrecting f) (finalValue :: changes f) (errors f),
     None).
Proof. reflexivity. Qed.

Lemma onKeyDown_other key f :
  JS.eqb key Enter = false -> onKeyDown key f = (f, None).
Proof. unfold onKeyDown, handleKeyDown, Enter. intros ->. reflexivity. Qed.

Lemma newCursorPosition_inside finalValue target :
  target < length (split finalValue) ->
  newCursorPosition finalValue target =
    sumBefore (split finalValue) target
    + prefixLength (nth target (split finalValue) []).
Proof.
  intros Ht. unfold newCursorPosition, prefixLength.
  apply Nat.ltb_lt in Ht. rewrite Ht.
  destruct (matchOrdinalPrefix (nth target (split finalValue) []));
    [reflexivity | lia].
Qed.

Lemma newCursorPosition_outside finalValue target :
  length (split finalValue) <= target ->
  newCursorPosition finalValue target = length finalValue.
Proof.
  intros Ht. unfold newCursorPosition.
  apply Nat.ltb_ge in Ht. rewrite Ht. reflexivity.
Qed.

(** The text up to the computed position is the lines before the target
    line, the line break in front of the target line, and the ordinal
    prefix of the target line. *)
Lemma cursor_lands_after_prefix finalValue target targetLine :
  0 < target ->
  nth_error (split finalValue) target = Some targetLine ->
  firstn (newCursorPosition finalValue target) finalValue =
    join (firstn target (split finalValue)) ++ [LF]
      ++ firstn (prefixLength targetLine) targetLine.
Proof.
  intros H0 Hnth.
  assert (Ht : target < length (split finalValue))
    by (apply nth_error_Some; congruence).
  rewrite newCursorPosition_inside by assumption.
  rewrite (nth_error_nth _ _ [] Hnth).
  rewrite sumBefore_offset by lia.
  rewrite <- (join_split finalValue) at 2.
  rewrite (join_at (split finalValue) target) by lia.
  rewrite (skipn_nth_cons _ _ _ Hnth).
  destruct (join_head targetLine (skipn (S target) (split finalValue)))
    as [tail ->].
  set (before := join (firstn target (split finalValue))).
  replace (before ++ LF :: targetLine ++ tail)
    with ((before ++ [LF]) ++ targetLine ++ tail)
    by (rewrite <- app_assoc; reflexivity).
  replace (length before + 1) with (length (before ++ [LF]))
    by (rewrite length_app; reflexivity).
  rewrite firstn_app_2, firstn_app.
  replace (prefixLength targetLine - length targetLine) with 0.
  - simpl firstn at 2. rewrite app_nil_r, <- app_assoc. reflexivity.
  - unfold prefixLength. rewrite matchOrdinalPrefix_closed. unfold ordinalPrefix.
    pose proof (takeWhile_dropWhile isDigit targetLine) as Hsplit.
    destruct (takeWhile isDigit targetLine) as [|d ds]; [lia|].
    destruct (dropWhile isDigit targetLine) as [|c rest]; [lia|].
    destruct (c =? 46)%N; [|lia].
    pose proof (takeWhile_dropWhile isWhiteSpace rest) as Hrest.
    apply (f_equal (@length _)) in Hrest. rewrite length_app in Hrest.
    rewrite <- Hsplit. rewrite !length_app. simpl. lia.
Qed.


(* ================================================================== *)
(** * The line break inside the last item of a list *)
(* ================================================================== *)

Lemma noLF_firstn j s : noLF s -> noLF (firstn j s).
Proof.
  intros H Hin. apply H. rewrite <- (firstn_skipn j s).
  apply in_or_app; left; assumption.
Qed.

Lemma noLF_skipn j s : noLF s -> noLF (skipn j s).
Proof.
  intros H Hin. apply H. rewrite <- (firstn_skipn j s).
  apply in_or_app; right; assumption.
Qed.

Lemma countNonBlank_all ls :
  Forall (fun l => isBlank l = false) ls -> countNonBlank ls = length ls.
Proof.
  induction 1 as [|l ls Hl _ IH]; [reflexivity|].
  rewrite countNonBlank_cons, Hl, IH. reflexivity.
Qed.

Section LastItem.

Variables (pre : list jsstring) (item : jsstring) (j : nat).

Hypothesis pre_nonnil : pre <> [].
Hypothesis pre_noLF : Forall noLF pre.
Hypothesis item_noLF : noLF item.
Hypothesis pre_nonblank : Forall (fun l => isBlank l = false) pre.
Hypothesis left_nonblank : isBlank (firstn j item) = false.
Hypothesis right_nonblank : isBlank (skipn j item) = false.

(** The buffer and the cursor: [j] characters into the last item. *)
Let buffer : jsstring := join (pre ++ [item]).
Let cursor : nat := length (join pre) + 1 + j.

Lemma buffer_cut : buffer = (join pre ++ [LF]) ++ item.
Proof.
  unfold buffer. rewrite join_app by (assumption || discriminate).
  rewrite <- app_assoc. reflexivity.
Qed.

Lemma cursor_cut : cursor = length (join pre ++ [LF]) + j.
Proof. unfold cursor. rewrite length_app. reflexivity. Qed.

Lemma before_cursor :
  substringTo buffer cursor = join pre ++ LF :: firstn j item.
Proof.
  unfold substringTo. rewrite buffer_cut, cursor_cut, firstn_app_2.
  rewrite <- app_assoc. reflexivity.
Qed.

Lemma after_cursor : substringFrom buffer cursor = skipn j item.
Proof.
  unfold substringFrom. rewrite buffer_cut, cursor_cut, skipn_app.
  rewrite skipn_all2 by lia.
  replace (length (join pre ++ [LF]) + j - length (join pre ++ [LF])) with j
    by lia.
  reflexivity.
Qed.

Lemma lines_before_cursor :
  split (substringTo buffer cursor) = pre ++ [firstn j item].
Proof.
  rewrite before_cursor, split_app, split_join by assumption.
  rewrite split_one by (apply noLF_firstn; assumption). reflexivity.
Qed.

Lemma currentLineIndex_last : currentLineIndex buffer cursor = length pre.
Proof.
  unfold currentLineIndex. rewrite lines_before_cursor, length_app.
  simpl. lia.
Qed.

Lemma lines_with_newline :
  split (textWithNewline buffer cursor)
  = (pre ++ [firstn j item]) ++ [skipn j item].
Proof.
  unfold textWithNewline. rewrite after_cursor.
  change ([LF] ++ skipn j item) with (LF :: skipn j item).
  rewrite split_app, lines_before_cursor.
  rewrite split_one by (apply noLF_skipn; assumption). reflexivity.
Qed.

(** The new line is the item after the items before the cursor. *)
Lemma new_line_numbered :
  nth_error
    (split (reformatTextToNumberedList (textWithNewline buffer cursor)))
    (length pre + 1)
  = Some (numbered (length pre + 2) (stripMarker (trim (skipn j item)))).
Proof.
  assert (Hnth : nth_error (split (textWithNewline buffer cursor)) (length pre + 1)
                 = Some (skipn j item)).
  { rewrite lines_with_newline.
    rewrite nth_error_app2 by (rewrite length_app; simpl; lia).
    rewrite length_app. simpl length.
    rewrite Nat.sub_diag. reflexivity. }
  rewrite reformat_lines, (mapLines_nth 1 _ _ _ Hnth), right_nonblank.
  do 2 f_equal.
  rewrite lines_with_newline.
  replace (length pre + 1) with (length (pre ++ [firstn j item]) + 0)
    by (rewrite length_app; simpl; lia).
  rewrite firstn_app_2, firstn_0, app_nil_r.
  rewrite countNonBlank_all.
  - rewrite length_app. simpl. lia.
  - apply Forall_app. split; [assumption|].
    constructor; [assumption | constructor].
Qed.

(** The pending cursor is right after the ordinal prefix of the new
    line. *)
Lemma cursor_after_new_ordinal :
  newCursorPosition
    (reformatTextToNumberedList (textWithNewline buffer cursor))
    (currentLineIndex buffer cursor + 1)
  = length (join (firstn (length pre + 1)
                    (split (reformatTextToNumberedList
                              (textWithNewline buffer cursor)))))
    + 1 + length (toString (length pre + 2) ++ lit ". "%string).
Proof.
  rewrite currentLineIndex_last.
  pose proof new_line_numbered as Hnth.
  assert (Ht : length pre + 1
               < length (split (reformatTextToNumberedList
                                  (textWithNewline buffer cursor))))
    by (apply nth_error_Some; congruence).
  rewrite newCursorPosition_inside by assumption.
  rewrite sumBefore_offset by lia.
  rewrite (nth_error_nth _ _ [] Hnth).
  rewrite prefixLength_numbered by apply content_trimmed.
  reflexivity.
Qed.

End LastItem.

(* ================================================================== *)
(** * The new line and the text after the cursor *)
(* ================================================================== *)

(** The line after the one the cursor was on is, before reformatting,
    the text from the cursor to the end of its line. *)
Lemma target_line_input v sel :
  nth_error (split (textWithNewline v sel)) (currentLineIndex v sel + 1)
  = Some (restOfLine v sel).
Proof.
  rewrite textWithNewline_lines. unfold currentLineIndex, restOfLine, substringTo,
    substringFrom.
  pose proof (length_split_pos (firstn sel v)) as Hpos.
  rewrite nth_error_app2 by lia.
  replace (length (split (firstn sel v)) - 1 + 1 - length (split (firstn sel v)))
    with 0 by lia.
  pose proof (split_nonnil (skipn sel v)) as Hne.
  destruct (split (skipn sel v)); [congruence | reflexivity].
Qed.

Lemma new_line_of_rest v sel :
  nth_error (split (reformatTextToNumberedList (textWithNewline v sel)))
    (currentLineIndex v sel + 1)
  = Some (if isBlank (restOfLine v sel) then []
          else numbered
                 (1 + countNonBlank
                        (firstn (currentLineIndex v sel + 1)
                           (split (textWithNewline v sel))))
                 (stripMarker (trim (restOfLine v sel)))).
Proof.
  rewrite reformat_lines. apply mapLines_nth, target_line_input.
Qed.

Lemma prefixLength_nil : prefixLength [] = 0.
Proof. reflexivity. Qed.

(** The position computed for an empty target line is its start. *)
Lemma cursor_at_empty_line finalValue target :
  0 < target ->
  nth_error (split finalValue) target = Some [] ->
  newCursorPosition finalValue target
  = length (join (firstn target (split finalValue))) + 1.
Proof.
  intros H0 Hnth.
  assert (Ht : target < length (split finalValue))
    by (apply nth_error_Some; congruence).
  rewrite newCursorPosition_inside by assumption.
  rewrite (nth_error_nth _ _ [] Hnth), prefixLength_nil.
  rewrite sumBefore_offset by lia. lia.
Qed.

(** The position computed for a numbered target line is the end of its
    ordinal prefix. *)
Lemma cursor_at_numbered_line finalValue target k content :
  0 < target ->
  nth_error (split finalValue) target = Some (numbered k content) ->
  trimStart content = content ->
  newCursorPosition finalValue target
  = length (join (firstn target (split finalValue))) + 1
    + length (toString k ++ lit ". "%string).
Proof.
  intros H0 Hnth Hc.
  assert (Ht : target < length (split finalValue))
    by (apply nth_error_Some; congruence).
  rewrite newCursorPosition_inside by assumption.
  rewrite (nth_error_nth _ _ [] Hnth), prefixLength_numbered by assumption.
  rewrite sumBefore_offset by lia. reflexivity.
Qed.

(** With only white space from the cursor to the end of its line, the
    new line is empty and the pending cursor is at its start. *)
Lemma enter_with_blank_rest f :
  isBlank (restOfLine (value f) (selectionStart f)) = true ->
  nth_error
    (split (reformatTextToNumberedList
              (textWithNewline (value f) (selectionStart f))))
    (currentLineIndex (value f) (selectionStart f) + 1) = Some []
  /\ cursorPosition (fst (onKeyDown Enter f))
     = Some (length (join (firstn (currentLineIndex (value f) (selectionStart f) + 1)
                             (split (reformatTextToNumberedList
                                       (textWithNewline (value f) (selectionStart f))))))
             + 1)
  /\ firstn (length (join (firstn (currentLineIndex (value f) (selectionStart f) + 1)
                             (split (reformatTextToNumberedList
                                       (textWithNewline (value f) (selectionStart f))))))
             + 1)
       (reformatTextToNumberedList (textWithNewline (value f) (selectionStart f)))
     = join (firstn (currentLineIndex (value f) (selectionStart f) + 1)
               (split (reformatTextToNumberedList
                         (textWithNewline (value f) (selectionStart f)))))
         ++ [LF].
Proof.
  intros Hb.
  pose proof (new_line_of_rest (value f) (selectionStart f)) as Hnth.
  rewrite Hb in Hnth.
  assert (H0 : 0 < currentLineIndex (value f) (selectionStart f) + 1) by lia.
  pose proof (cursor_at_empty_line _ _ H0 Hnth) as Hpos.
  split; [exact Hnth|]. split.
  - rewrite onKeyDown_Enter. cbn [fst cursorPosition]. rewrite Hpos. reflexivity.
  - rewrite <- Hpos. rewrite (cursor_lands_after_prefix _ _ [] H0 Hnth).
    rewrite prefixLength_nil. cbn [firstn]. rewrite app_nil_r. reflexivity.
Qed.

(** With text that is not blank from the cursor to the end of its line,
    the new line is numbered and the pending cursor is right after its
    ordinal prefix. *)
Lemma enter_with_text_rest f :
  isBlank (restOfLine (value f) (selectionStart f)) = false ->
  exists k content,
    nth_error
      (split (reformatTextToNumberedList
                (textWithNewline (value f) (selectionStart f))))
      (currentLineIndex (value f) (selectionStart f) + 1)
    = Some (numbered k content)
    /\ cursorPosition (fst (onKeyDown Enter f))
       = Some (length (join (firstn (currentLineIndex (value f) (selectionStart f) + 1)
                               (split (reformatTextToNumberedList
                                         (textWithNewline (value f) (selectionStart f))))))
               + 1 + length (toString k ++ lit ". "%string)).
Proof.
  intros Hb.
  pose proof (new_line_of_rest (value f) (selectionStart f)) as Hnth.
  rewrite Hb in Hnth.
  assert (H0 : 0 < currentLineIndex (value f) (selectionStart f) + 1) by lia.
  eexists _, _. split; [exact Hnth|].
  rewrite onKeyDown_Enter. cbn [fst cursorPosition]. f_equal.
  apply (cursor_at_numbered_line _ _ _ _ H0 Hnth). apply content_trimmed.
Qed.

(** The same on a list of items with the cursor [j] characters into the
    last one and only white space after it. *)
Lemma enter_with_blank_rest_of_last_item pre item j :
  pre <> [] -> Forall noLF pre -> noLF item ->
  isBlank (skipn j item) = true ->
  nth_error
    (split (value (fst (onKeyDown Enter
                          (mkField (join (pre ++ [item]))
                                   (length (join pre) + 1 + j) None false [] 0)))))
    (length pre + 1) = Some []
  /\ cursorPosition (fst (onKeyDown Enter
                            (mkField (join (pre ++ [item]))
                                     (length (join pre) + 1 + j) None false [] 0)))
     = Some (length (join (firstn (length pre + 1)
                             (split (value (fst (onKeyDown Enter
                                (mkField (join (pre ++ [item]))
                                   (length (join pre) + 1 + j) None false [] 0)))))))
             + 1).
Proof.
  intros Hne HnoLF Hitem Hb.
  set (f := mkField (join (pre ++ [item])) (length (join pre) + 1 + j)
                    None false [] 0).
  assert (Hrest : restOfLine (value f) (selectionStart f) = skipn j item).
  { unfold restOfLine, f. cbn [value selectionStart].
    rewrite (after_cursor pre item j Hne).
    rewrite split_one by (apply noLF_skipn; assumption). reflexivity. }
  assert (Hidx : currentLineIndex (value f) (selectionStart f) = length pre)
    by (apply currentLineIndex_last; assumption).
  destruct (enter_with_blank_rest f) as (H1 & H2 & _).
  { rewrite Hrest. exact Hb. }
  rewrite Hidx in H1, H2.
  rewrite onKeyDown_Enter in *. cbn [fst value cursorPosition] in *.
  split; [exact H1 | exact H2].
Qed.

(* ================================================================== *)
(** * The line-break handler: properties of the specification *)
(* ================================================================== *)

(** C4, as the specification has it, fails: the line break after [a] in
    [1. a], [2. b] does not give the lines [1. a], [2. ], [3. b] with the
    cursor at offset 8. *)
Lemma enter_after_first_item_not_numbered :
  ~ (value (fst (onKeyDown Enter
                   (mkField (join [lit "1. a"%string; lit "2. b"%string]) 4
                            None false [] 0)))
     = join [lit "1. a"%string; lit "2. "%string; lit "3. b"%string]
     /\ cursorPosition (fst (onKeyDown Enter
                   (mkField (join [lit "1. a"%string; lit "2. b"%string]) 4
                            None false [] 0)))
        = Some 8).
Proof. vm_compute. intros [H _]. discriminate H. Qed.

(** C4, amended.  With the buffer [1. a], [2. b] and the cursor right
    after [a], the line-break keystroke hands the lines [1. a], empty,
    [2. b] to [onChange] and sets the pending cursor position to 5, the
    start of the new empty line; nothing else of the field changes and the
    handler does not wait for anything. *)
Theorem enter_after_first_item :
  onKeyDown Enter
    (mkField (join [lit "1. a"%string; lit "2. b"%string]) 4 None false [] 0)
  = (mkField (join [lit "1. a"%string; []; lit "2. b"%string]) 4 (Some 5) false
             [join [lit "1. a"%string; []; lit "2. b"%string]] 0,
     None).
Proof. vm_compute. reflexivity. Qed.

(** C5, as the specification has it, fails with the cursor at the end of
    item 9: the new line is empty, there is no tenth item. *)
Lemma enter_at_end_of_ninth_item :
  ~ repositionsOnTenthItem nineItems 44.
Proof.
  intros [content [H _]]. vm_compute in H. discriminate H.
Qed.

(** C5, amended.  The position computed from a reformatted text and a
    target index is the sum of the lengths of the lines before the target
    line, one for each of them, and the length of the ordinal prefix of
    the target line when it has one; it is the length of the text when the
    text has no such line.  For every buffer and cursor the handler
    commits the reformatted text and sets the pending cursor to that
    position for the line after the one the cursor was on; that line
    exists, and the text up to the pending cursor is the lines before it,
    a line break, and, when the line is not empty, its ordinal prefix.
    On every list of nine items with the cursor inside item 9, text that
    is not blank on both sides of it, the tenth line is numbered 10 and
    the cursor is right after its four-character prefix; so it is on the
    list [1. a] to [9. ij] with the cursor between [i] and [j].  When
    only white space follows the cursor on its line, on every buffer and
    so on every list of nine items with the cursor on item 9, the new
    line is empty, without an ordinal, and the pending cursor is at its
    start; when text that is not blank follows, the new line is numbered
    and the pending cursor is right after its ordinal prefix. *)
Theorem line_break_cursor_position :
  (forall finalValue target,
      target < length (split finalValue) ->
      newCursorPosition finalValue target =
        list_sum (map (@length N) (firstn target (split finalValue)))
        + target
        + prefixLength (nth target (split finalValue) []))
  /\ (forall finalValue target,
        length (split finalValue) <= target ->
        newCursorPosition finalValue target = length finalValue)
  /\ (forall f : Field,
        let finalValue :=
          reformatTextToNumberedList
            (textWithNewline (value f) (selectionStart f)) in
        let target := currentLineIndex (value f) (selectionStart f) + 1 in
        let position := newCursorPosition finalValue target in
        value (fst (onKeyDown Enter f)) = finalValue
        /\ cursorPosition (fst (onKeyDown Enter f)) = Some position
        /\ exists targetLine,
             nth_error (split finalValue) target = Some targetLine
             /\ ((targetLine = []
                  /\ firstn position finalValue
                     = join (firstn target (split finalValue)) ++ [LF])
                 \/ (exists k content,
                       targetLine = numbered k content
                       /\ firstn position finalValue
                          = join (firstn target (split finalValue)) ++ [LF]
                              ++ toString k ++ lit ". "%string)))
  /\ (forall items j,
        length items = 9 ->
        Forall noLF items ->
        Forall (fun l => isBlank l = false) items ->
        isBlank (firstn j (nth 8 items [])) = false ->
        isBlank (skipn j (nth 8 items [])) = false ->
        repositionsOnTenthItem (join items)
          (length (join (firstn 8 items)) + 1 + j))
  /\ repositionsOnTenthItem nineItemsLong 44
  /\ (forall f : Field,
        let finalValue :=
          reformatTextToNumberedList
            (textWithNewline (value f) (selectionStart f)) in
        let target := currentLineIndex (value f) (selectionStart f) + 1 in
        isBlank (restOfLine (value f) (selectionStart f)) = true ->
        nth_error (split finalValue) target = Some []
        /\ cursorPosition (fst (onKeyDown Enter f))
           = Some (length (join (firstn target (split finalValue))) + 1)
        /\ firstn (length (join (firstn target (split finalValue))) + 1)
             finalValue
           = join (firstn target (split finalValue)) ++ [LF])
  /\ (forall f : Field,
        let finalValue :=
          reformatTextToNumberedList
            (textWithNewline (value f) (selectionStart f)) in
        let target := currentLineIndex (value f) (selectionStart f) + 1 in
        isBlank (restOfLine (value f) (selectionStart f)) = false ->
        exists k content,
          nth_error (split finalValue) target = Some (numbered k content)
          /\ cursorPosition (fst (onKeyDown Enter f))
             = Some (length (join (firstn target (split finalValue))) + 1
                     + length (toString k ++ lit ". "%string)))
  /\ (forall items j,
        length items = 9 ->
        Forall noLF items ->
        isBlank (skipn j (nth 8 items [])) = true ->
        nth_error
          (split (value (fst (onKeyDown Enter
                    (mkField (join items)
                       (length (join (firstn 8 items)) + 1 + j)
                       None false [] 0))))) 9 = Some []
        /\ cursorPosition (fst (onKeyDown Enter
                    (mkField (join items)
                       (length (join (firstn 8 items)) + 1 + j)
                       None false [] 0)))
           = Some (length (join (firstn 9
                      (split (value (fst (onKeyDown Enter
                         (mkField (join items)
                            (length (join (firstn 8 items)) + 1 + j)
                            None false [] 0))))))) + 1)).
Proof.
  split; [|split; [|split; [|split; [|split; [|split; [|split]]]]]].
  - intros finalValue target Ht.
    rewrite newCursorPosition_inside, sumBefore_sum by lia. reflexivity.
  - exact newCursorPosition_outside.
  - intros f finalValue target position.
    rewrite onKeyDown_Enter. cbn [fst value cursorPosition].
    split; [reflexivity|]. split; [reflexivity|].
    pose proof (target_exists (value f) (selectionStart f)) as Ht.
    fold finalValue in Ht. fold target in Ht.
    destruct (nth_error (split finalValue) target) as [targetLine|] eqn:Hnth;
      [|apply nth_error_None in Hnth; lia].
    exists targetLine. split; [reflexivity|].
    assert (H0 : 0 < target) by (unfold target; lia).
    pose proof (cursor_lands_after_prefix finalValue target targetLine H0 Hnth) as Hpos.
    fold position in Hpos.
    destruct (reformat_line_shape _ _ _ Hnth) as [E|(k & content & E & Hs & _)].
    + left. split; [assumption|]. rewrite Hpos, E. reflexivity.
    + right. exists k, content. split; [assumption|].
      rewrite Hpos, E, prefixLength_numbered by assumption.
      unfold numbered. rewrite (app_assoc (toString k)).
      rewrite firstn_app, firstn_all, Nat.sub_diag.
      simpl firstn. rewrite app_nil_r. reflexivity.
  - intros items j Hlen HnoLF Hnb Hleft Hright.
    set (pre := firstn 8 items) in *. set (item := nth 8 items []) in *.
    assert (Hitems : items = pre ++ [item]).
    { rewrite <- (firstn_all2 (n := 9) items) at 1 by lia.
      apply firstn_snoc_nth. lia. }
    assert (Hpre : length pre = 8)
      by (unfold pre; rewrite length_firstn; lia).
    rewrite Hitems in HnoLF, Hnb.
    apply Forall_app in HnoLF. destruct HnoLF as [HnoLF Hitem].
    apply Forall_app in Hnb. destruct Hnb as [Hnb _].
    apply Forall_cons_iff in Hitem. destruct Hitem as [Hitem _].
    assert (Hne : pre <> []) by (intros E; rewrite E in Hpre; discriminate).
    unfold repositionsOnTenthItem. rewrite onKeyDown_Enter.
    cbn [fst value cursorPosition selectionStart].
    rewrite Hitems.
    exists (stripMarker (trim (skipn j item))). split.
    + pose proof (new_line_numbered pre item j Hne HnoLF Hitem Hnb Hleft Hright)
        as H.
      rewrite Hpre in H. exact H.
    + pose proof (cursor_after_new_ordinal pre item j Hne HnoLF Hitem Hnb
                    Hleft Hright) as H.
      rewrite Hpre in H. rewrite H. reflexivity.
  - exists (lit "j"%string). vm_compute. split; reflexivity.
  - intros f finalValue target Hb. exact (enter_with_blank_rest f Hb).
  - intros f finalValue target Hb. exact (enter_with_text_rest f Hb).
  - intros items j Hlen HnoLF Hb.
    set (pre := firstn 8 items) in *. set (item := nth 8 items []) in *.
    assert (Hitems : items = pre ++ [item]).
    { rewrite <- (firstn_all2 (n := 9) items) at 1 by lia.
      apply firstn_snoc_nth. lia. }
    assert (Hpre : length pre = 8)
      by (unfold pre; rewrite length_firstn; lia).
    rewrite Hitems in HnoLF.
    apply Forall_app in HnoLF. destruct HnoLF as [HnoLF Hitem].
    apply Forall_cons_iff in Hitem. destruct Hitem as [Hitem _].
    assert (Hne : pre <> []) by (intros E; rewrite E in Hpre; discriminate).
    pose proof (enter_with_blank_rest_of_last_item pre item j Hne HnoLF Hitem Hb)
      as H.
    rewrite Hpre in H. rewrite Hitems. exact H.
Qed.

(** The formula of C5 on the two-item buffer and its second line. *)
Lemma line_break_cursor_position_witness :
  newCursorPosition (join [lit "1. a"%string; []; lit "2. b"%string]) 2 = 9.
Proof.
  rewrite (proj1 line_break_cursor_position
             (join [lit "1. a"%string; []; lit "2. b"%string]) 2).
  - reflexivity.
  - vm_compute. lia.
Defined.

(* ================================================================== *)
(** * Facts about the blur handler *)
(* ================================================================== *)

Lemma startsCorrection_true props v :
  onAutoCorrect props = true -> readOnly props = false ->
  isBlank (reformatTextToNumberedList v) = false ->
  startsCorrection props v = true.
Proof.
  unfold startsCorrection, isBlank. intros -> -> H. simpl.
  apply Nat.eqb_neq in H. apply Nat.ltb_lt. lia.
Qed.

Lemma startsCorrection_false props v :
  onAutoCorrect props = false -> startsCorrection props v = false.
Proof. unfold startsCorrection. intros ->. reflexivity. Qed.

Lemma run_when_triggerChange currentValue newValue f :
  run (when (negb (JS.eqb currentValue newValue)) (triggerChange newValue)) f
  = (commitIfDiffers currentValue newValue f, None).
Proof.
  unfold commitIfDiffers. destruct (JS.eqb currentValue newValue); reflexivity.
Qed.

Lemma value_commitIfDiffers f newValue :
  value (commitIfDiffers (value f) newValue f) = newValue.
Proof.
  unfold commitIfDiffers. destruct (JS.eqb (value f) newValue) eqn:E.
  - apply eqb_spec in E. exact E.
  - reflexivity.
Qed.

Lemma isCorrecting_commitIfDiffers currentValue newValue f :
  isCorrecting (commitIfDiffers currentValue newValue f) = isCorrecting f.
Proof. unfold commitIfDiffers. destruct (JS.eqb _ _); reflexivity. Qed.

(** The blur that does not start a correction call only reformats. *)
Lemma onBlur_local props f :
  startsCorrection props (value f) = false ->
  onBlur props f =
    (commitIfDiffers (value f) (reformatTextToNumberedList (value f)) f, None).
Proof.
  unfold onBlur, handleBlur, startsCorrection. intros ->.
  apply run_when_triggerChange.
Qed.

(** The blur that starts a correction call raises the flag and stops at
    the call, made with the reformatted text; when the call settles the
    handler commits the corrected text, or the reformatted one after a
    failure, if it differs from the text at blur time, and lowers the
    flag. *)
Lemma onBlur_call props f :
  startsCorrection props (value f) = true ->
  exists resume,
    onBlur props f =
      (applyEffect (SetIsCorrecting true) f,
       Some (reformatTextToNumberedList (value f), resume))
    /\ (forall v f1,
          run (resume (Resolved v)) f1 =
            (applyEffect (SetIsCorrecting false)
               (commitIfDiffers (value f) v f1), None))
    /\ (forall f1,
          run (resume Rejected) f1 =
            (applyEffect (SetIsCorrecting false)
               (commitIfDiffers (value f) (reformatTextToNumberedList (value f))
                  (applyEffect ConsoleError f1)), None)).
Proof.
  unfold onBlur, handleBlur, startsCorrection. intros ->.
  eexists. split; [reflexivity|]. split.
  - intros v f1. cbv beta iota.
    rewrite run_andThen, run_when_triggerChange. reflexivity.
  - intros f1. cbv beta iota.
    rewrite run_andThen.
    change (run (perform ConsoleError ;;
                 when (negb (JS.eqb (value f) (reformatTextToNumberedList (value f))))
                   (triggerChange (reformatTextToNumberedList (value f)))) f1)
      with (run (when (negb (JS.eqb (value f) (reformatTextToNumberedList (value f))))
                   (triggerChange (reformatTextToNumberedList (value f))))
                (applyEffect ConsoleError f1)).
    rewrite run_when_triggerChange. reflexivity.
Qed.

Lemma onBlur_call_finishes props f f1 call :
  onBlur props f = (f1, Some call) -> finishes call.
Proof.
  destruct (startsCorrection props (value f)) eqn:E.
  - destruct (onBlur_call props f E) as (resume & -> & Hres & Hrej).
    intros [= <- <-]. intros [v|] f2; unfold settle; simpl snd.
    + rewrite Hres. split; reflexivity.
    + rewrite Hrej. split; reflexivity.
  - rewrite (onBlur_local props f E). discriminate.
Qed.

Lemma onKeyDown_finishes key f :
  snd (onKeyDown key f) = None
  /\ isCorrecting (fst (onKeyDown key f)) = isCorrecting f.
Proof.
  destruct (JS.eqb key Enter) eqn:E.
  - apply eqb_spec in E. subst key. rewrite onKeyDown_Enter. split; reflexivity.
  - rewrite (onKeyDown_other _ _ E). split; reflexivity.
Qed.

Lemma changes_commitIfDiffers currentValue newValue f :
  changes (commitIfDiffers currentValue newValue f) =
    if JS.eqb currentValue newValue then changes f else newValue :: changes f.
Proof. unfold commitIfDiffers. destruct (JS.eqb _ _); reflexivity. Qed.

Lemma blurSettled_local props outcome f :
  startsCorrection props (value f) = false ->
  blurSettled props outcome f =
    commitIfDiffers (value f) (reformatTextToNumberedList (value f)) f.
Proof.
  intros E. unfold blurSettled. rewrite (onBlur_local props f E). reflexivity.
Qed.

Lemma blurSettled_resolved props v f :
  startsCorrection props (value f) = true ->
  blurSettled props (Resolved v) f =
    applyEffect (SetIsCorrecting false)
      (commitIfDiffers (value f) v (applyEffect (SetIsCorrecting true) f)).
Proof.
  intros E. unfold blurSettled.
  destruct (onBlur_call props f E) as (resume & -> & Hres & _).
  unfold settle. simpl snd. rewrite Hres. reflexivity.
Qed.

Lemma blurSettled_rejected props f :
  startsCorrection props (value f) = true ->
  blurSettled props Rejected f =
    applyEffect (SetIsCorrecting false)
      (commitIfDiffers (value f) (reformatTextToNumberedList (value f))
         (applyEffect ConsoleError (applyEffect (SetIsCorrecting true) f))).
Proof.
  intros E. unfold blurSettled.
  destruct (onBlur_call props f E) as (resume & -> & _ & Hrej).
  unfold settle. simpl snd. rewrite Hrej. reflexivity.
Qed.

(* ================================================================== *)
(** * The blur handler: properties of the specification *)
(* ================================================================== *)

(** C6.  When the correction capability is there, the field is editable
    and the reformatted text is not blank, the blur raises the flag and
    stops at the correction call, made with the reformatted text.  If the
    call fails, the handler runs to its end, the buffer is the reformatted
    text ([onChange] got it if it differs from the text at blur time, and
    nothing otherwise), and the flag is down again; the flag is down also
    after a call that succeeds. *)
Theorem blur_with_failing_correction props f :
  onAutoCorrect props = true ->
  readOnly props = false ->
  isBlank (reformatTextToNumberedList (value f)) = false ->
  (exists call f1,
      onBlur props f = (f1, Some call)
      /\ fst call = reformatTextToNumberedList (value f)
      /\ isCorrecting f1 = true
      /\ forall outcome, snd (settle call outcome f1) = None)
  /\ value (blurSettled props Rejected f) = reformatTextToNumberedList (value f)
  /\ changes (blurSettled props Rejected f) =
       (if JS.eqb (value f) (reformatTextToNumberedList (value f))
        then changes f
        else reformatTextToNumberedList (value f) :: changes f)
  /\ isCorrecting (blurSettled props Rejected f) = false
  /\ forall corrected,
       isCorrecting (blurSettled props (Resolved corrected) f) = false.
Proof.
  intros Hc Hr Hb.
  pose proof (startsCorrection_true props (value f) Hc Hr Hb) as E.
  split; [|split; [|split; [|split]]].
  - destruct (onBlur_call props f E) as (resume & Hblur & Hres & Hrej).
    eexists _, _. split; [exact Hblur|]. split; [reflexivity|].
    split; [reflexivity|].
    intros [v|]; unfold settle; simpl snd.
    + rewrite Hres. reflexivity.
    + rewrite Hrej. reflexivity.
  - rewrite blurSettled_rejected by assumption.
    exact (value_commitIfDiffers
             (applyEffect ConsoleError (applyEffect (SetIsCorrecting true) f))
             (reformatTextToNumberedList (value f))).
  - rewrite blurSettled_rejected by assumption.
    exact (changes_commitIfDiffers (value f)
             (reformatTextToNumberedList (value f))
             (applyEffect ConsoleError (applyEffect (SetIsCorrecting true) f))).
  - rewrite blurSettled_rejected by assumption. reflexivity.
  - intros corrected. rewrite blurSettled_resolved by assumption. reflexivity.
Qed.

(** C6 on a field that shows [a], with a capability that fails. *)
Lemma blur_with_failing_correction_witness :
  value (blurSettled (mkProps true false) Rejected
           (mkField (lit "a"%string) 1 None false [] 0))
  = lit "1. a"%string.
Proof.
  exact (proj1 (proj2 (blur_with_failing_correction (mkProps true false)
                         (mkField (lit "a"%string) 1 None false [] 0)
                         eq_refl eq_refl eq_refl))).
Defined.

(** C7.  When the correction call was made and succeeds with a text that
    differs from the text at blur time, [onChange] gets the returned text
    and the buffer is the returned text. *)
Theorem blur_with_succeeding_correction props f corrected :
  onAutoCorrect props = true ->
  readOnly props = false ->
  isBlank (reformatTextToNumberedList (value f)) = false ->
  corrected <> value f ->
  value (blurSettled props (Resolved corrected) f) = corrected
  /\ changes (blurSettled props (Resolved corrected) f) = corrected :: changes f.
Proof.
  intros Hc Hr Hb Hd.
  pose proof (startsCorrection_true props (value f) Hc Hr Hb) as E.
  rewrite blurSettled_resolved by assumption. split.
  - exact (value_commitIfDiffers (applyEffect (SetIsCorrecting true) f) corrected).
  - cbn [applyEffect changes]. rewrite changes_commitIfDiffers.
    assert (Hne : JS.eqb (value f) corrected = false)
      by (apply eqb_neq; congruence).
    rewrite Hne. reflexivity.
Qed.

(** C7 on a field that shows [teh], with a capability that answers
    [1. the]. *)
Lemma blur_with_succeeding_correction_witness :
  value (blurSettled (mkProps true false) (Resolved (lit "1. the"%string))
           (mkField (lit "teh"%string) 3 None false [] 0))
  = lit "1. the"%string.
Proof.
  refine (proj1 (blur_with_succeeding_correction (mkProps true false)
                   (mkField (lit "teh"%string) 3 None false [] 0)
                   (lit "1. the"%string) eq_refl eq_refl eq_refl _)).
  vm_compute. discriminate.
Defined.




(* ================================================================== *)
(** * The flag and the outstanding calls *)
(* ================================================================== *)

Section Invariants.

Variable props : Props.

Lemma Forall_removeNth (P : Suspended -> Prop) n l :
  Forall P l -> Forall P (removeNth n l).
Proof.
  intros H. unfold removeNth. apply Forall_app. split.
  - rewrite <- (firstn_skipn n l) in H. apply Forall_app in H. tauto.
  - rewrite <- (firstn_skipn (S n) l) in H. apply Forall_app in H. tauto.
Qed.

Lemma isCorrecting_layoutEffect f :
  isCorrecting (layoutEffect f) = isCorrecting f.
Proof. unfold layoutEffect. destruct (cursorPosition f); reflexivity. Qed.

(** What a blur does to the component of an editable field. *)
Lemma after_onBlur f others :
  (startsCorrection props (value f) = true
   /\ exists call,
        after (onBlur props f) others
          = mkComponent (applyEffect (SetIsCorrecting true) f) (others ++ [call])
        /\ finishes call)
  \/ (startsCorrection props (value f) = false
      /\ after (onBlur props f) others
         = mkComponent
             (commitIfDiffers (value f) (reformatTextToNumberedList (value f)) f)
             others).
Proof.
  destruct (startsCorrection props (value f)) eqn:E.
  - left. split; [reflexivity|].
    pose proof (onBlur_call_finishes props f) as Hfin.
    destruct (onBlur_call props f E) as (resume & Hblur & _).
    rewrite Hblur in *. eexists. split; [reflexivity|].
    exact (Hfin _ _ eq_refl).
  - right. split; [reflexivity|]. rewrite (onBlur_local props f E). reflexivity.
Qed.

Lemma after_onKeyDown key f others :
  exists f', after (onKeyDown key f) others = mkComponent f' others
             /\ isCorrecting f' = isCorrecting f.
Proof.
  destruct (onKeyDown_finishes key f) as [Hnone Hflag].
  destruct (onKeyDown key f) as [f' [call|]]; [discriminate|].
  exists f'. split; [reflexivity | exact Hflag].
Qed.

Lemma after_settle call outcome f others :
  finishes call ->
  exists f', after (settle call outcome f) others = mkComponent f' others
             /\ isCorrecting f' = false.
Proof.
  intros Hfin. destruct (Hfin outcome f) as [Hnone Hflag].
  destruct (settle call outcome f) as [f' [call'|]]; [discriminate|].
  exists f'. split; [reflexivity | exact Hflag].
Qed.

Lemma flagInvariant_dispatch ev c :
  flagInvariant c -> flagInvariant (dispatch props ev c).
Proof.
  intros [Hfin Hflag]. destruct ev as [key | v sel | | n outcome | ]; simpl.
  - destruct (readOnly props); [split; assumption|].
    destruct (after_onKeyDown key (field c) (pending c)) as (f' & -> & Hf').
    split; simpl; [assumption | rewrite Hf'; assumption].
  - split; simpl; assumption.
  - destruct (readOnly props); [split; assumption|].
    destruct (after_onBlur (field c) (pending c))
      as [(_ & call & -> & Hcall) | (_ & ->)].
    + split; simpl.
      * apply Forall_app. split; [assumption | constructor; [assumption|constructor]].
      * intros _ E. apply app_eq_nil in E. destruct E as [_ E]. discriminate E.
    + split; simpl; [assumption|].
      rewrite isCorrecting_commitIfDiffers. assumption.
  - destruct (nth_error (pending c) n) as [call|] eqn:En; [|split; assumption].
    assert (Hcall : finishes call).
    { rewrite Forall_forall in Hfin. apply Hfin.
      apply (nth_error_In _ _ En). }
    destruct (after_settle call outcome (field c) (removeNth n (pending c)) Hcall)
      as (f' & -> & Hf').
    split; simpl; [apply Forall_removeNth; assumption|].
    rewrite Hf'. discriminate.
  - split; simpl; [assumption|]. rewrite isCorrecting_layoutEffect. assumption.
Qed.

Lemma oneCallInvariant_dispatch ev c :
  (ev = Blur -> pending c = []) ->
  oneCallInvariant c -> oneCallInvariant (dispatch props ev c).
Proof.
  intros Hblur [Hfin Hstate].
  destruct ev as [key | v sel | | n outcome | ]; simpl.
  - destruct (readOnly props); [split; assumption|].
    destruct (after_onKeyDown key (field c) (pending c)) as (f' & -> & Hf').
    split; simpl; [assumption | rewrite Hf'; assumption].
  - split; simpl; assumption.
  - destruct (readOnly props); [split; assumption|].
    specialize (Hblur eq_refl).
    destruct Hstate as [[_ Hdown] | [Hlen _]]; [|rewrite Hblur in Hlen; discriminate].
    destruct (after_onBlur (field c) (pending c))
      as [(_ & call & -> & Hcall) | (_ & ->)].
    + split; simpl.
      * apply Forall_app. split; [assumption | constructor; [assumption|constructor]].
      * right. rewrite Hblur. split; reflexivity.
    + split; simpl; [assumption|]. left.
      rewrite isCorrecting_commitIfDiffers. split; assumption.
  - destruct (nth_error (pending c) n) as [call|] eqn:En; [|split; assumption].
    assert (Hcall : finishes call).
    { rewrite Forall_forall in Hfin. apply Hfin.
      apply (nth_error_In _ _ En). }
    destruct (after_settle call outcome (field c) (removeNth n (pending c)) Hcall)
      as (f' & -> & Hf').
    split; simpl; [apply Forall_removeNth; assumption|].
    left. split; [|assumption].
    destruct Hstate as [[Hnil _] | [Hlen _]].
    + rewrite Hnil in En. destruct n; discriminate.
    + destruct (pending c) as [|call0 [|call1 rest]]; try discriminate.
      destruct n as [|n]; [reflexivity|]. destruct n; discriminate.
  - split; simpl; [assumption|]. rewrite isCorrecting_layoutEffect. assumption.
Qed.

Lemma flagInvariant_dispatchAll evs c :
  flagInvariant c -> flagInvariant (dispatchAll props evs c).
Proof.
  revert c; induction evs as [|ev evs IH]; intros c H; [assumption|].
  simpl. apply IH, flagInvariant_dispatch, H.
Qed.

Lemma oneCallInvariant_dispatchAll evs c :
  blursWhenSettled props evs c ->
  oneCallInvariant c -> oneCallInvariant (dispatchAll props evs c).
Proof.
  revert c; induction evs as [|ev evs IH]; intros c Hb H; [assumption|].
  destruct Hb as [Hnow Hrest]. simpl.
  apply IH; [assumption|]. apply oneCallInvariant_dispatch; assumption.
Qed.

End Invariants.

(** C9, as the specification has it, fails: a second blur while the first
    correction call is outstanding starts another one. *)
Lemma second_blur_starts_second_call :
  ~ atMostOneOutstanding (mkProps true false) (mounted (lit "a"%string) 1).
Proof.
  intros H. specialize (H [Blur; Blur]). vm_compute in H. lia.
Qed.

(** C9, amended.  The flag is raised when a correction call starts and
    lowered when a call settles; the blur handler does not look at it.
    In every sequence of events on a mounted field the flag is up only
    while at least one call is outstanding; every blur on an editable
    field with a capability and a reformatted text that is not blank
    starts a call, whatever the flag and the calls outstanding; and in the
    sequences where no blur arrives while a call is outstanding, at most
    one call is outstanding and the flag is up exactly while it is. *)
Theorem correcting_flag_and_outstanding_calls props v sel evs :
  (isCorrecting (field (dispatchAll props evs (mounted v sel))) = true ->
   pending (dispatchAll props evs (mounted v sel)) <> [])
  /\ (forall c,
        onAutoCorrect props = true -> readOnly props = false ->
        isBlank (reformatTextToNumberedList (value (field c))) = false ->
        length (pending (dispatch props Blur c)) = S (length (pending c))
        /\ isCorrecting (field (dispatch props Blur c)) = true)
  /\ (blursWhenSettled props evs (mounted v sel) ->
      length (pending (dispatchAll props evs (mounted v sel))) <= 1
      /\ (isCorrecting (field (dispatchAll props evs (mounted v sel))) = true
          <-> length (pending (dispatchAll props evs (mounted v sel))) = 1)).
Proof.
  split; [|split].
  - apply (flagInvariant_dispatchAll props evs (mounted v sel)).
    split; simpl; [constructor | discriminate].
  - intros c Hc Hr Hb. simpl. rewrite Hr.
    destruct (after_onBlur props (field c) (pending c))
      as [(_ & call & -> & _) | (E & _)].
    + simpl. rewrite length_app. simpl. split; [lia | reflexivity].
    + rewrite (startsCorrection_true props _ Hc Hr Hb) in E. discriminate E.
  - intros Hspaced.
    destruct (oneCallInvariant_dispatchAll props evs (mounted v sel) Hspaced)
      as [_ [[Hnil Hdown] | [Hlen Hup]]].
    + split; simpl; [constructor | left; split; reflexivity].
    + rewrite Hnil, Hdown. simpl. split; [lia|]. split; discriminate.
    + rewrite Hlen, Hup. split; [lia|]. split; reflexivity.
Qed.

(** The amended C9 on a blur, the failure of its call, and a second
    blur. *)
Lemma correcting_flag_and_outstanding_calls_witness :
  length (pending (dispatchAll (mkProps true false)
                     [Blur; Settle 0 Rejected; Blur]
                     (mounted (lit "a"%string) 1))) <= 1.
Proof.
  refine (proj1 (proj2 (proj2 (correcting_flag_and_outstanding_calls
                                 (mkProps true false) (lit "a"%string) 1
                                 [Blur; Settle 0 Rejected; Blur])) _)).
  simpl. repeat split; intros; try discriminate; reflexivity.
Defined.

(* ================================================================== *)
(** * More about the Reformatter *)
(* ================================================================== *)

Lemma dropWhile_nil_iff p s : dropWhile p s = [] <-> forallb p s = true.
Proof.
  induction s as [|c s IH]; simpl; [tauto|].
  destruct (p c); simpl; [exact IH|]. split; discriminate.
Qed.

Lemma forallb_rev (p : char -> bool) s : forallb p (rev s) = forallb p s.
Proof.
  induction s as [|c s IH]; [reflexivity|].
  simpl. rewrite forallb_app, IH. simpl. rewrite andb_true_r. apply andb_comm.
Qed.

Lemma trimEnd_nil_iff s : trimEnd s = [] <-> forallb isWhiteSpace s = true.
Proof.
  unfold trimEnd, trimStart. rewrite <- (forallb_rev isWhiteSpace s).
  rewrite <- dropWhile_nil_iff. split.
  - intros H. apply (f_equal (@rev _)) in H. rewrite rev_involutive in H. exact H.
  - intros ->. reflexivity.
Qed.

(** A line is blank exactly when all its characters are white space. *)
Lemma isBlank_forallb s : isBlank s = forallb isWhiteSpace s.
Proof.
  unfold isBlank, trim.
  destruct (forallb isWhiteSpace s) eqn:E.
  - apply dropWhile_nil_iff in E. unfold trimStart. rewrite E. reflexivity.
  - apply Nat.eqb_neq. intros H. apply length_zero_iff_nil in H.
    destruct (trimStart s) as [|c t] eqn:Et.
    + apply dropWhile_nil_iff in Et. congruence.
    + pose proof (dropWhile_head _ _ _ _ Et) as Hc.
      rewrite trimEnd_cons in H. rewrite Hc in H.
      destruct (trimEnd t); discriminate H.
Qed.

Lemma isBlank_join ls : isBlank (join ls) = forallb isBlank ls.
Proof.
  induction ls as [|l ls IH]; [reflexivity|].
  destruct ls as [|l' ls].
  - simpl. rewrite andb_true_r. reflexivity.
  - rewrite join_cons. rewrite isBlank_forallb, forallb_app.
    change (forallb isWhiteSpace (LF :: join (l' :: ls)))
      with (forallb isWhiteSpace (join (l' :: ls))).
    rewrite <- !isBlank_forallb, IH. reflexivity.
Qed.

Lemma forallb_map_id (f : jsstring -> bool) ls :
  forallb f ls = forallb (fun b => b) (map f ls).
Proof. induction ls as [|l ls IH]; simpl; [|rewrite IH]; reflexivity. Qed.

Lemma countNonBlank_map l1 l2 :
  map isBlank l1 = map isBlank l2 -> countNonBlank l1 = countNonBlank l2.
Proof.
  revert l2; induction l1 as [|a l1 IH]; intros [|b l2] H; try discriminate;
    [reflexivity|].
  simpl in H. injection H as Hab H.
  rewrite !countNonBlank_cons, Hab, (IH _ H). reflexivity.
Qed.

Lemma numberLine_counter counter line :
  snd (numberLine counter line) = counter + countNonBlank [line].
Proof.
  rewrite countNonBlank_cons. destruct (isBlank line) eqn:E.
  - rewrite numberLine_blank by assumption. change (countNonBlank []) with 0.
    simpl. lia.
  - rewrite numberLine_nonblank by assumption. change (countNonBlank []) with 0.
    simpl. lia.
Qed.

(** The callback on a list of lines followed by another: the second list
    is numbered from where the first stopped. *)
Lemma mapLines_app counter l1 l2 :
  mapLines counter (l1 ++ l2) =
    mapLines counter l1 ++ mapLines (counter + countNonBlank l1) l2.
Proof.
  revert counter; induction l1 as [|a l1 IH]; intros counter.
  - simpl. f_equal. unfold countNonBlank. simpl. lia.
  - change ((a :: l1) ++ l2) with (a :: (l1 ++ l2)).
    rewrite !mapLines_cons, IH, numberLine_counter.
    simpl app. do 2 f_equal.
    rewrite (countNonBlank_cons a l1), (countNonBlank_cons a []).
    change (countNonBlank []) with 0. f_equal. lia.
Qed.

Lemma mapLines_nonnil counter lines : lines <> [] -> mapLines counter lines <> [].
Proof.
  intros H E. apply (f_equal (@length _)) in E.
  rewrite mapLines_length in E. apply length_zero_iff_nil in E. auto.
Qed.

(** The two trims commute. *)
Lemma trim_comm s : trimStart (trimEnd s) = trim s.
Proof.
  unfold trim. induction s as [|c s IH]; [reflexivity|].
  unfold trimStart at 2. simpl dropWhile.
  destruct (isWhiteSpace c) eqn:Ec.
  - fold (trimStart s). rewrite <- IH. rewrite trimEnd_cons, Ec.
    destruct (trimEnd s) as [|d t]; [reflexivity|].
    unfold trimStart at 1. simpl. rewrite Ec. reflexivity.
  - rewrite trimEnd_cons, Ec.
    destruct (trimEnd s); unfold trimStart; simpl; rewrite Ec; reflexivity.
Qed.

(** [trimEnd] stops at a character that is not white space. *)
Lemma trimEnd_app_keep a c rest :
  isWhiteSpace c = false ->
  trimEnd ((a ++ [c]) ++ rest) = (a ++ [c]) ++ trimEnd rest.
Proof.
  intros Hc. induction rest as [|d r IH] using rev_ind.
  - rewrite app_nil_r. rewrite trimEnd_snoc by assumption.
    change (trimEnd []) with (@nil N). rewrite app_nil_r. reflexivity.
  - rewrite app_assoc. destruct (isWhiteSpace d) eqn:Ed.
    + rewrite !trimEnd_snoc_ws by assumption. exact IH.
    + rewrite !trimEnd_snoc by assumption. rewrite app_assoc. reflexivity.
Qed.

Lemma trimEnd_decompose s :
  exists tail, s = trimEnd s ++ tail /\ forallb isWhiteSpace tail = true.
Proof.
  exists (rev (takeWhile isWhiteSpace (rev s))). split.
  - unfold trimEnd, trimStart. rewrite <- rev_app_distr.
    rewrite takeWhile_dropWhile, rev_involutive. reflexivity.
  - rewrite forallb_rev. apply takeWhile_all.
Qed.

(** A line is its trimmed text between two runs of white space. *)
Lemma trim_decompose s :
  exists head tail,
    s = head ++ trim s ++ tail
    /\ forallb isWhiteSpace head = true /\ forallb isWhiteSpace tail = true.
Proof.
  destruct (trimEnd_decompose (trimStart s)) as (tail & Ht & Hw).
  exists (takeWhile isWhiteSpace s), tail. split; [|split].
  - unfold trim. rewrite <- Ht. symmetry. apply takeWhile_dropWhile.
  - apply takeWhile_all.
  - exact Hw.
Qed.

(** The result of the Reformatter is one of its fixed points. *)
Lemma reformat_twice text :
  reformatTextToNumberedList (reformatTextToNumberedList text)
  = reformatTextToNumberedList text.
Proof.
  rewrite (reformat_join_lines (reformatTextToNumberedList text)).
  rewrite reformat_lines, mapLines_idem.
  symmetry; apply reformat_join_lines.
Qed.

(** The result is blank exactly when the text is. *)
Lemma reformat_blank_iff_line text :
  isBlank (reformatTextToNumberedList text) = isBlank text.
Proof.
  rewrite <- (join_split text) at 2.
  rewrite reformat_join_lines, !isBlank_join.
  rewrite (forallb_map_id isBlank (mapLines 1 (split text))).
  rewrite mapLines_isBlank. symmetry. apply forallb_map_id.
Qed.

Lemma mapLines_all_blank counter lines :
  forallb isBlank lines = true ->
  mapLines counter lines = repeat [] (length lines).
Proof.
  revert counter; induction lines as [|l ls IH]; intros counter H;
    [reflexivity|].
  simpl in H. apply andb_true_iff in H. destruct H as [Hl Hls].
  rewrite mapLines_cons, numberLine_blank by assumption.
  cbn [fst snd length repeat]. rewrite IH by assumption. reflexivity.
Qed.

Lemma join_repeat_nil n : join (repeat [] (S n)) = repeat LF n.
Proof.
  induction n as [|n IH]; [reflexivity|].
  change (repeat [] (S (S n))) with ([] :: [] :: repeat ([] : list N) n).
  rewrite join_cons. cbn [app repeat]. f_equal. exact IH.
Qed.

(** A blank text comes out as its line feeds. *)
Lemma reformat_blank_text text :
  isBlank text = true ->
  reformatTextToNumberedList text = repeat LF (length (split text) - 1).
Proof.
  intros Hb. rewrite <- (join_split text) in Hb. rewrite isBlank_join in Hb.
  rewrite reformat_join_lines, (mapLines_all_blank 1 _ Hb).
  pose proof (length_split_pos text) as Hpos.
  destruct (length (split text)) as [|n]; [lia|].
  rewrite join_repeat_nil. f_equal. lia.
Qed.

Lemma patternMarker_match m rest :
  patternMarker m -> matchMarker (m ++ rest) = Some rest.
Proof.
  intros [ds Hne Hds | | ].
  - rewrite <- app_assoc. apply matchMarker_digits; assumption.
  - reflexivity.
  - reflexivity.
Qed.

(** A marker starts and ends with a character that is not white space
    and has no line feed. *)
Lemma patternMarker_shape m :
  patternMarker m ->
  (exists c t, m = c :: t /\ isWhiteSpace c = false)
  /\ (exists t c, m = t ++ [c] /\ isWhiteSpace c = false)
  /\ noLF m.
Proof.
  intros [ds Hne Hds | | ].
  - split; [|split].
    + destruct ds as [|d ds]; [congruence|].
      exists d, (ds ++ [46%N]). split; [reflexivity|].
      simpl in Hds. apply andb_true_iff in Hds.
      apply isDigit_not_ws; tauto.
    + exists ds, 46%N. split; reflexivity.
    + intros Hin. apply in_app_or in Hin. destruct Hin as [Hin|[Hin|[]]].
      * exact (digits_noLF _ Hds Hin).
      * discriminate Hin.
  - split; [|split].
    + exists 42%N, []. split; reflexivity.
    + exists [], 42%N. split; reflexivity.
    + intros [Hin|[]]. discriminate Hin.
  - split; [|split].
    + exists 45%N, []. split; reflexivity.
    + exists [], 45%N. split; reflexivity.
    + intros [Hin|[]]. discriminate Hin.
Qed.

(* ================================================================== *)
(** * The Reformatter: further properties *)
(* ================================================================== *)

(** X1.  The result is numbered with respect to itself: each of its lines
    is empty, or the ordinal of that line among the non-blank lines of
    the result, a full stop, a space and a content without white space at
    its ends. *)
Theorem reformat_output_numbered text i out :
  nth_error (split (reformatTextToNumberedList text)) i = Some out ->
  out = [] \/
  exists content,
    out = numbered (ordinal (split (reformatTextToNumberedList text)) i) content
    /\ trimStart content = content /\ trimEnd content = content.
Proof.
  intros H. pose proof H as H'. rewrite reformat_lines in H'.
  assert (Hi : i < length (split text)).
  { rewrite <- (mapLines_length 1). apply nth_error_Some. congruence. }
  destruct (nth_error (split text) i) as [line|] eqn:El;
    [|apply nth_error_None in El; lia].
  rewrite (mapLines_nth 1 _ _ _ El) in H'. injection H' as <-.
  destruct (isBlank line); [left; reflexivity|].
  right. exists (stripMarker (trim line)). split; [|apply content_trimmed].
  assert (Hord : ordinal (split (reformatTextToNumberedList text)) i
                 = ordinal (split text) i).
  { unfold ordinal. f_equal. apply countNonBlank_map.
    rewrite <- !firstn_map. f_equal.
    rewrite reformat_lines. apply mapLines_isBlank. }
  rewrite Hord. reflexivity.
Qed.

(** X1 on the second line of the result for [x], empty, [- y]. *)
Lemma reformat_output_numbered_witness :
  lit "2. y"%string = []
  \/ exists content,
       lit "2. y"%string
       = numbered (ordinal (split (reformatTextToNumberedList
                      (join [lit "x"%string; []; lit "- y"%string]))) 2) content
       /\ trimStart content = content /\ trimEnd content = content.
Proof.
  apply (reformat_output_numbered
           (join [lit "x"%string; []; lit "- y"%string]) 2 (lit "2. y"%string)).
  reflexivity.
Defined.

(** X2.  Nothing but white space around the line, one marker at its start
    and the white space after the marker is taken from a line: a
    non-blank line is white space, what is removed, the content and white
    space, where what is removed is nothing or a marker of the pattern
    followed by white space, and the content is what follows the new
    ordinal in the result. *)
Theorem reformat_removes_only_marker text i line :
  nth_error (split text) i = Some line ->
  isBlank line = false ->
  exists head removed content tail,
    line = head ++ removed ++ content ++ tail
    /\ forallb isWhiteSpace head = true
    /\ forallb isWhiteSpace tail = true
    /\ (removed = []
        \/ exists m ws, patternMarker m /\ forallb isWhiteSpace ws = true
                        /\ removed = m ++ ws)
    /\ nth_error (split (reformatTextToNumberedList text)) i
       = Some (numbered (ordinal (split text) i) content).
Proof.
  intros Hline Hnb.
  destruct (trim_decompose line) as (head & tail & Hdec & Hhead & Htail).
  assert (Hout : nth_error (split (reformatTextToNumberedList text)) i
                 = Some (numbered (ordinal (split text) i) (stripMarker (trim line)))).
  { rewrite reformat_lines, (mapLines_nth 1 _ _ _ Hline), Hnb. reflexivity. }
  rewrite stripMarker_closed in Hout.
  destruct (matchMarker (trim line)) as [rest|] eqn:Em.
  - destruct (matchMarker_Some _ _ Em) as (m & Hm & Hshape).
    exists head, (m ++ takeWhile isWhiteSpace rest),
           (dropWhile isWhiteSpace rest), tail.
    split; [|split; [|split; [|split]]]; try assumption.
    + rewrite <- app_assoc, (app_assoc (takeWhile isWhiteSpace rest)).
      rewrite takeWhile_dropWhile, (app_assoc m), <- Hm. exact Hdec.
    + right. exists m, (takeWhile isWhiteSpace rest).
      split; [|split; [apply takeWhile_all | reflexivity]].
      destruct Hshape as [(ds & Hne & Hds & ->) | [-> | ->]]; constructor;
        assumption.
  - exists head, [], (trim line), tail.
    split; [|split; [|split; [|split]]]; try assumption.
    left; reflexivity.
Qed.

(** X2 on the line [  * a ] of a one-line text. *)
Lemma reformat_removes_only_marker_witness :
  exists head removed content tail,
    lit "  * a "%string = head ++ removed ++ content ++ tail
    /\ forallb isWhiteSpace head = true
    /\ forallb isWhiteSpace tail = true
    /\ (removed = []
        \/ exists m ws, patternMarker m /\ forallb isWhiteSpace ws = true
                        /\ removed = m ++ ws)
    /\ nth_error (split (reformatTextToNumberedList (lit "  * a "%string))) 0
       = Some (numbered (ordinal (split (lit "  * a "%string)) 0) content).
Proof.
  apply (reformat_removes_only_marker (lit "  * a "%string) 0 (lit "  * a "%string));
    reflexivity.
Defined.

(** X3.  The pattern asks for no space after the marker: a one-line text
    that starts with digits and a full stop, with an asterisk or with a
    hyphen loses them whatever follows, so a decimal number loses its
    integer part and a negative number its sign. *)
Theorem marker_needs_no_space m rest :
  patternMarker m ->
  noLF rest ->
  reformatTextToNumberedList (m ++ rest) = numbered 1 (trim rest).
Proof.
  intros Hm Hrest.
  destruct (patternMarker_shape m Hm)
    as ((c & t & Ehead & Hc) & (t' & c' & Etail & Hc') & HmLF).
  assert (Htrim : trim (m ++ rest) = m ++ trimEnd rest).
  { assert (Hstart : trimStart (m ++ rest) = m ++ rest).
    { unfold trimStart. rewrite Ehead. simpl app.
      apply dropWhile_stop; assumption. }
    unfold trim. rewrite Hstart. clear Ehead Hstart. subst m.
    apply trimEnd_app_keep; assumption. }
  assert (HnoLF : noLF (m ++ rest)).
  { intros Hin. apply in_app_or in Hin. destruct Hin; auto. }
  rewrite reformat_join_lines, (split_one _ HnoLF).
  assert (Hnb : isBlank (m ++ rest) = false).
  { unfold isBlank. rewrite Htrim, Ehead. reflexivity. }
  simpl mapLines. rewrite (numberLine_nonblank 1 _ Hnb). simpl join.
  f_equal. rewrite Htrim, stripMarker_closed, (patternMarker_match _ _ Hm).
  apply trim_comm.
Qed.

(** X3 on [3.14 mg]: the result is [1. 14 mg]. *)
Lemma marker_needs_no_space_witness :
  reformatTextToNumberedList (lit "3.14 mg"%string) = lit "1. 14 mg"%string.
Proof.
  refine (marker_needs_no_space (lit "3."%string) (lit "14 mg"%string) _ _).
  - apply (pattern_ordinal (lit "3"%string)); [discriminate | reflexivity].
  - vm_compute. intuition discriminate.
Defined.

(** X4.  The result is blank exactly when the text is: a text with a
    character that is not white space never comes out blank, and a blank
    text comes out as line feeds only, one for each line feed it had. *)
Theorem reformat_blank_iff text :
  isBlank (reformatTextToNumberedList text) = isBlank text
  /\ (isBlank text = true ->
      reformatTextToNumberedList text = repeat LF (length (split text) - 1))
  /\ (isBlank text = false ->
      exists c, In c (reformatTextToNumberedList text)
                /\ isWhiteSpace c = false).
Proof.
  split; [apply reformat_blank_iff_line|]. split.
  - apply reformat_blank_text.
  - intros Hb. rewrite <- reformat_blank_iff_line, isBlank_forallb in Hb.
    destruct (forallb_forall isWhiteSpace (reformatTextToNumberedList text))
      as [_ Hall].
    destruct (existsb (fun c => negb (isWhiteSpace c))
                (reformatTextToNumberedList text)) eqn:E.
    + apply existsb_exists in E. destruct E as (c & Hin & Hc).
      exists c. split; [assumption|]. apply negb_true_iff. exact Hc.
    + rewrite Hall in Hb; [discriminate Hb|].
      intros c Hin. destruct (isWhiteSpace c) eqn:Ec; [reflexivity|].
      assert (existsb (fun c => negb (isWhiteSpace c))
                (reformatTextToNumberedList text) = true).
      { apply existsb_exists. exists c. split; [assumption|].
        rewrite Ec. reflexivity. }
      congruence.
Qed.

(** X4 on a text of a space, a line feed and a tab: the result is one
    line feed. *)
Lemma reformat_blank_iff_witness :
  reformatTextToNumberedList [32%N; LF; 9%N] = [LF].
Proof.
  exact (proj1 (proj2 (reformat_blank_iff [32%N; LF; 9%N])) eq_refl).
Defined.

(** X5.  Lines added at the end do not change the lines before them: the
    result for a text, a line feed and a second text is the result for
    the first text, a line feed, and the lines of the second text
    numbered from where the first text stopped. *)
Theorem reformat_append a b :
  reformatTextToNumberedList (a ++ LF :: b) =
    reformatTextToNumberedList a
      ++ LF :: join (mapLines (1 + countNonBlank (split a)) (split b)).
Proof.
  rewrite (reformat_join_lines (a ++ LF :: b)), split_app, mapLines_app.
  rewrite join_app by (apply mapLines_nonnil, split_nonnil).
  rewrite <- reformat_join_lines. reflexivity.
Qed.

(* ================================================================== *)
(** * The line-break handler: further properties *)
(* ================================================================== *)

Lemma length_split_cons c s :
  length (split (c :: s)) = (if (c =? LF)%N then 1 else 0) + length (split s).
Proof.
  simpl. destruct (c =? LF)%N; [reflexivity|].
  pose proof (split_nonnil s). destruct (split s); [congruence|reflexivity].
Qed.

Lemma length_split_app a b :
  length (split (a ++ b)) + 1 = length (split a) + length (split b).
Proof.
  induction a as [|c a IH].
  - simpl. lia.
  - change ((c :: a) ++ b) with (c :: (a ++ b)).
    rewrite !length_split_cons. lia.
Qed.

Lemma prefixLength_le s : prefixLength s <= length s.
Proof.
  unfold prefixLength. rewrite matchOrdinalPrefix_closed. unfold ordinalPrefix.
  pose proof (takeWhile_dropWhile isDigit s) as Hs.
  destruct (takeWhile isDigit s) as [|d ds]; [lia|].
  destruct (dropWhile isDigit s) as [|c rest]; [lia|].
  destruct (c =? 46)%N; [|lia].
  pose proof (takeWhile_dropWhile isWhiteSpace rest) as Hr.
  apply (f_equal (@length _)) in Hr. rewrite length_app in Hr.
  rewrite <- Hs. rewrite !length_app. simpl. lia.
Qed.

Lemma commitIfDiffers_same v f : commitIfDiffers v v f = f.
Proof. unfold commitIfDiffers. rewrite eqb_refl. reflexivity. Qed.

(** The lines of the result before the target line are the lines of the
    reformatted text before the cursor. *)
Lemma lines_before_target v sel :
  join (firstn (currentLineIndex v sel + 1)
          (split (reformatTextToNumberedList (textWithNewline v sel))))
  = reformatTextToNumberedList (substringTo v sel).
Proof.
  rewrite reformat_lines, textWithNewline_lines, mapLines_app.
  unfold currentLineIndex, substringTo.
  pose proof (length_split_pos (firstn sel v)) as Hpos.
  replace (length (split (firstn sel v)) - 1 + 1)
    with (length (mapLines 1 (split (firstn sel v))) + 0)
    by (rewrite mapLines_length; lia).
  rewrite firstn_app_2, firstn_0, app_nil_r.
  symmetry. apply reformat_join_lines.
Qed.

(** X6.  The line-break keystroke adds exactly one line to the buffer,
    wherever the cursor is. *)
Theorem enter_adds_one_line f :
  length (split (value (fst (onKeyDown Enter f))))
  = S (length (split (value f))).
Proof.
  rewrite onKeyDown_Enter. cbn [fst value].
  rewrite reformat_lines, mapLines_length, textWithNewline_lines, length_app.
  pose proof (length_split_app (firstn (selectionStart f) (value f))
                               (skipn (selectionStart f) (value f))) as H.
  rewrite firstn_skipn in H. lia.
Qed.

(** X7.  The pending cursor set by the line-break keystroke lies within
    the committed buffer, so the layout effect gives it to the textarea
    as it is; the effect clears it, keeps the buffer, and does nothing
    when it runs again. *)
Theorem pending_cursor_applied f :
  (exists position,
      cursorPosition (fst (onKeyDown Enter f)) = Some position
      /\ position <= length (value (fst (onKeyDown Enter f)))
      /\ selectionStart (layoutEffect (fst (onKeyDown Enter f))) = position)
  /\ cursorPosition (layoutEffect (fst (onKeyDown Enter f))) = None
  /\ value (layoutEffect (fst (onKeyDown Enter f)))
     = value (fst (onKeyDown Enter f))
  /\ layoutEffect (layoutEffect (fst (onKeyDown Enter f)))
     = layoutEffect (fst (onKeyDown Enter f)).
Proof.
  rewrite onKeyDown_Enter. cbn [fst].
  set (finalValue := reformatTextToNumberedList
                       (textWithNewline (value f) (selectionStart f))).
  set (target := currentLineIndex (value f) (selectionStart f) + 1).
  assert (Hle : newCursorPosition finalValue target <= length finalValue).
  { pose proof (target_exists (value f) (selectionStart f)) as Ht.
    fold finalValue in Ht. fold target in Ht.
    destruct (nth_error (split finalValue) target) as [targetLine|] eqn:Hnth;
      [|apply nth_error_None in Hnth; lia].
    assert (H0 : 0 < target) by (unfold target; lia).
    pose proof (cursor_lands_after_prefix finalValue target targetLine H0 Hnth)
      as Hpos.
    apply (f_equal (@length _)) in Hpos.
    rewrite length_firstn, !length_app, length_firstn in Hpos.
    pose proof (prefixLength_le targetLine) as Hp.
    rewrite newCursorPosition_inside in * by assumption.
    rewrite sumBefore_offset in * by lia.
    rewrite (nth_error_nth _ _ [] Hnth) in *.
    simpl length in Hpos. lia. }
  split; [|split; [|split]].
  - exists (newCursorPosition finalValue target).
    split; [reflexivity|]. split; [exact Hle|].
    unfold layoutEffect. cbn [cursorPosition value selectionStart].
    apply Nat.min_l. exact Hle.
  - reflexivity.
  - reflexivity.
  - reflexivity.
Qed.

(** X8.  The line-break keystroke leaves the buffer reformatted: the
    Reformatter does not change it, and a blur right after it on a field
    without a correction capability commits nothing and changes nothing. *)
Theorem blur_after_enter_commits_nothing props f :
  reformatTextToNumberedList (value (fst (onKeyDown Enter f)))
  = value (fst (onKeyDown Enter f))
  /\ (onAutoCorrect props = false ->
      onBlur props (fst (onKeyDown Enter f)) = (fst (onKeyDown Enter f), None)).
Proof.
  assert (Hfix : reformatTextToNumberedList (value (fst (onKeyDown Enter f)))
                 = value (fst (onKeyDown Enter f))).
  { rewrite onKeyDown_Enter. cbn [fst value]. apply reformat_twice. }
  split; [exact Hfix|].
  intros Hc. rewrite onBlur_local by (apply startsCorrection_false; assumption).
  rewrite Hfix, commitIfDiffers_same. reflexivity.
Qed.

(** X8 on the buffer [a] with the cursor at its end. *)
Lemma blur_after_enter_commits_nothing_witness :
  onBlur (mkProps false false)
    (fst (onKeyDown Enter (mkField (lit "a"%string) 1 None false [] 0)))
  = (fst (onKeyDown Enter (mkField (lit "a"%string) 1 None false [] 0)), None).
Proof.
  exact (proj2 (blur_after_enter_commits_nothing (mkProps false false)
                  (mkField (lit "a"%string) 1 None false [] 0)) eq_refl).
Defined.

(** X9.  What stands before the pending cursor in the committed buffer
    is the reformatted text that stood before the cursor, a line break,
    and the ordinal prefix of the new line when it has one: the text
    after the cursor has no part in it but through that prefix. *)
Theorem text_before_cursor_reformatted f :
  exists position targetLine,
    cursorPosition (fst (onKeyDown Enter f)) = Some position
    /\ nth_error (split (value (fst (onKeyDown Enter f))))
         (currentLineIndex (value f) (selectionStart f) + 1) = Some targetLine
    /\ firstn position (value (fst (onKeyDown Enter f)))
       = reformatTextToNumberedList (substringTo (value f) (selectionStart f))
           ++ [LF] ++ firstn (prefixLength targetLine) targetLine.
Proof.
  rewrite onKeyDown_Enter. cbn [fst value cursorPosition].
  pose proof (target_exists (value f) (selectionStart f)) as Ht.
  destruct (nth_error
              (split (reformatTextToNumberedList
                        (textWithNewline (value f) (selectionStart f))))
              (currentLineIndex (value f) (selectionStart f) + 1))
    as [targetLine|] eqn:Hnth; [|apply nth_error_None in Hnth; lia].
  eexists _, targetLine. split; [reflexivity|]. split; [reflexivity|].
  rewrite (cursor_lands_after_prefix _ _ targetLine) by (lia || assumption).
  rewrite lines_before_target. reflexivity.
Qed.

(* ================================================================== *)
(** * The blur handler and the events: further properties *)
(* ================================================================== *)

Lemma startsCorrection_iff props v :
  startsCorrection props v = true <->
  onAutoCorrect props = true /\ readOnly props = false /\ isBlank v = false.
Proof.
  unfold startsCorrection.
  rewrite !andb_true_iff, negb_true_iff, Nat.ltb_lt.
  rewrite <- (reformat_blank_iff_line v). unfold isBlank.
  rewrite Nat.eqb_neq. split.
  - intros [[H1 H2] H3]. repeat split; try assumption. lia.
  - intros (H1 & H2 & H3). repeat split; try assumption. lia.
Qed.

Lemma onBlur_suspends props f :
  snd (onBlur props f) <> None <-> startsCorrection props (value f) = true.
Proof.
  destruct (startsCorrection props (value f)) eqn:E.
  - destruct (onBlur_call props f E) as (resume & -> & _).
    split; [reflexivity | discriminate].
  - rewrite (onBlur_local props f E). simpl. split; congruence.
Qed.


(** X10.  A blur starts the correction call exactly when the capability
    is there, the field is editable and the buffer as it stands, before
    any reformatting, has a character that is not white space. *)
Theorem correction_starts_iff props f :
  snd (onBlur props f) <> None <->
  onAutoCorrect props = true /\ readOnly props = false
  /\ isBlank (value f) = false.
Proof. rewrite onBlur_suspends. apply startsCorrection_iff. Qed.

(** X11.  A blur that starts no correction call leaves the field in a
    state that a second blur does not change: nothing is committed
    twice. *)
Theorem blur_twice props f :
  snd (onBlur props f) = None ->
  onBlur props (fst (onBlur props f)) = (fst (onBlur props f), None).
Proof.
  intros Hnone.
  assert (E : startsCorrection props (value f) = false).
  { destruct (startsCorrection props (value f)) eqn:E; [|reflexivity].
    apply onBlur_suspends in E. congruence. }
  rewrite (onBlur_local props f E). cbn [fst].
  set (f1 := commitIfDiffers (value f) (reformatTextToNumberedList (value f)) f).
  assert (Hv : value f1 = reformatTextToNumberedList (value f))
    by apply value_commitIfDiffers.
  assert (E1 : startsCorrection props (value f1) = false).
  { destruct (startsCorrection props (value f1)) eqn:E1; [|reflexivity].
    apply startsCorrection_iff in E1. destruct E1 as (H1 & H2 & H3).
    rewrite Hv, reformat_blank_iff_line in H3.
    assert (startsCorrection props (value f) = true)
      by (apply startsCorrection_iff; auto).
    congruence. }
  rewrite (onBlur_local props f1 E1), Hv, reformat_twice, <- Hv.
  rewrite commitIfDiffers_same. reflexivity.
Qed.

(** X11 on a field that shows [a], without a correction capability. *)
Lemma blur_twice_witness :
  onBlur (mkProps false false)
    (fst (onBlur (mkProps false false) (mkField (lit "a"%string) 1 None false [] 0)))
  = (fst (onBlur (mkProps false false)
            (mkField (lit "a"%string) 1 None false [] 0)), None).
Proof.
  exact (blur_twice (mkProps false false)
           (mkField (lit "a"%string) 1 None false [] 0) eq_refl).
Defined.

(** X12.  A blur with its settlement never touches the pending cursor,
    gives at most one value to [onChange], which is then the buffer, and
    writes to the console once when the call it started failed and not at
    all otherwise. *)
Theorem blur_frame props outcome f :
  cursorPosition (blurSettled props outcome f) = cursorPosition f
  /\ (changes (blurSettled props outcome f) = changes f
      \/ changes (blurSettled props outcome f)
         = value (blurSettled props outcome f) :: changes f)
  /\ errors (blurSettled props outcome f) =
       match outcome with
       | Rejected =>
           if startsCorrection props (value f) then S (errors f) else errors f
       | Resolved _ => errors f
       end.
Proof.
  assert (Hframe : forall cur new g,
    cursorPosition (commitIfDiffers cur new g) = cursorPosition g
    /\ (changes (commitIfDiffers cur new g) = changes g
        \/ changes (commitIfDiffers cur new g)
           = value (commitIfDiffers cur new g) :: changes g)
    /\ errors (commitIfDiffers cur new g) = errors g).
  { intros cur new g. unfold commitIfDiffers.
    destruct (JS.eqb cur new); simpl; auto. }
  destruct (startsCorrection props (value f)) eqn:E.
  - destruct outcome as [v|].
    + rewrite blurSettled_resolved by assumption.
      destruct (Hframe (value f) v (applyEffect (SetIsCorrecting true) f))
        as (H2 & H3 & H4).
      cbn [applyEffect cursorPosition changes errors value].
      auto.
    + rewrite blurSettled_rejected by assumption.
      destruct (Hframe (value f) (reformatTextToNumberedList (value f))
                  (applyEffect ConsoleError (applyEffect (SetIsCorrecting true) f)))
        as (H2 & H3 & H4).
      cbn [applyEffect cursorPosition changes errors value].
      auto.
  - rewrite blurSettled_local by assumption.
    destruct (Hframe (value f) (reformatTextToNumberedList (value f)) f)
      as (H2 & H3 & H4).
    destruct outcome; auto.
Qed.

(** X13.  The handler compares the returned text with the text captured
    at blur time, not with the buffer at the time the call settles: an
    edit made while the call is outstanding is overwritten by a returned
    text that differs from the captured one, and survives only when the
    returned text is the captured one. *)
Theorem stale_correction_overwrites_edit props v sel v2 sel2 corrected :
  onAutoCorrect props = true ->
  readOnly props = false ->
  isBlank v = false ->
  value (field (dispatchAll props
                  [Blur; Input v2 sel2; Settle 0 (Resolved corrected)]
                  (mounted v sel)))
  = if JS.eqb v corrected then v2 else corrected.
Proof.
  intros Hc Hr Hb.
  assert (E : startsCorrection props v = true)
    by (apply startsCorrection_iff; auto).
  unfold dispatchAll, mounted. cbn [fold_left dispatch field pending].
  rewrite Hr.
  destruct (onBlur_call props (mkField v sel None false [] 0) E)
    as (resume & Hblur & Hres & _).
  rewrite Hblur. cbn [after app field pending nth_error].
  unfold settle. cbn [snd]. rewrite Hres. cbn [after field value].
  unfold commitIfDiffers. cbn [value].
  destruct (JS.eqb v corrected); reflexivity.
Qed.

(** X13 with the edit [b] made while the correction of [a] is awaited. *)
Lemma stale_correction_overwrites_edit_witness :
  value (field (dispatchAll (mkProps true false)
                  [Blur; Input (lit "b"%string) 1;
                   Settle 0 (Resolved (lit "1. A"%string))]
                  (mounted (lit "a"%string) 1)))
  = lit "1. A"%string.
Proof.
  exact (stale_correction_overwrites_edit (mkProps true false)
           (lit "a"%string) 1 (lit "b"%string) 1 (lit "1. A"%string)
           eq_refl eq_refl eq_refl).
Defined.



(** X15.  In read-only mode the key and blur handlers are not attached:
    whatever the events, the component gives nothing to [onChange]
    through [triggerChange], makes no correction call, leaves the flag
    down, sets no pending cursor and writes nothing to the console; and
    under events other than typing the buffer is the one the field was
    mounted with. *)
Theorem read_only_field_is_inert props v sel evs :
  readOnly props = true ->
  changes (field (dispatchAll props evs (mounted v sel))) = []
  /\ pending (dispatchAll props evs (mounted v sel)) = []
  /\ isCorrecting (field (dispatchAll props evs (mounted v sel))) = false
  /\ cursorPosition (field (dispatchAll props evs (mounted v sel))) = None
  /\ errors (field (dispatchAll props evs (mounted v sel))) = 0
  /\ (Forall notInput evs ->
      value (field (dispatchAll props evs (mounted v sel))) = v).
Proof.
  intros Hr.
  assert (Hinv : forall evs c,
    (changes (field c) = [] /\ pending c = []
     /\ isCorrecting (field c) = false /\ cursorPosition (field c) = None
     /\ errors (field c) = 0) ->
    (changes (field (dispatchAll props evs c)) = []
     /\ pending (dispatchAll props evs c) = []
     /\ isCorrecting (field (dispatchAll props evs c)) = false
     /\ cursorPosition (field (dispatchAll props evs c)) = None
     /\ errors (field (dispatchAll props evs c)) = 0
     /\ (Forall notInput evs ->
         value (field (dispatchAll props evs c)) = value (field c)))).
  { clear evs. induction evs as [|ev evs IH]; intros c Hc.
    - destruct Hc as (H1 & H2 & H3 & H4 & H5). repeat split; auto.
    - destruct Hc as (H1 & H2 & H3 & H4 & H5).
      assert (Hstep :
        (changes (field (dispatch props ev c)) = []
         /\ pending (dispatch props ev c) = []
         /\ isCorrecting (field (dispatch props ev c)) = false
         /\ cursorPosition (field (dispatch props ev c)) = None
         /\ errors (field (dispatch props ev c)) = 0)
        /\ (notInput ev -> value (field (dispatch props ev c)) = value (field c))).
      { destruct ev as [key | v' sel' | | n outcome | ]; cbn [dispatch].
        - rewrite Hr. repeat split; auto.
        - cbn [field pending value changes isCorrecting cursorPosition errors].
          split; [repeat split; auto|]. intros [].
        - rewrite Hr. repeat split; auto.
        - rewrite H2. destruct n; cbn [nth_error]; rewrite <- H2;
            repeat split; auto.
        - cbn [field pending]. unfold layoutEffect. rewrite H4.
          repeat split; auto. }
      destruct Hstep as [Hstep Hval].
      destruct (IH _ Hstep) as (G1 & G2 & G3 & G4 & G5 & G6).
      simpl. repeat split; auto.
      intros Hall. apply Forall_cons_iff in Hall. destruct Hall as [Hev Hall].
      rewrite (G6 Hall). apply Hval, Hev. }
  destruct (Hinv evs (mounted v sel)) as (G1 & G2 & G3 & G4 & G5 & G6).
  { cbn. auto. }
  repeat split; auto.
Qed.

(** X15 on a read-only field under a keystroke, a blur, a settlement and
    the layout effect. *)
Lemma read_only_field_is_inert_witness :
  value (field (dispatchAll (mkProps true true)
                  [KeyDown Enter; Blur; Settle 0 Rejected; Render]
                  (mounted (lit "a"%string) 1)))
  = lit "a"%string.
Proof.
  refine (proj2 (proj2 (proj2 (proj2 (proj2
            (read_only_field_is_inert (mkProps true true) (lit "a"%string) 1
               [KeyDown Enter; Blur; Settle 0 Rejected; Render] eq_refl))))) _).
  repeat constructor.
Defined.

(** X10 on an editable field with the capability that shows one space:
    no call is started. *)
Lemma correction_starts_iff_witness :
  ~ snd (onBlur (mkProps true false) (mkField (lit " "%string) 1 None false [] 0))
      <> None.
Proof.
  intros H.
  apply (proj1 (correction_starts_iff (mkProps true false)
                  (mkField (lit " "%string) 1 None false [] 0))) in H.
  destruct H as (_ & _ & H). discriminate H.
Defined.

(* ================================================================== *)
(** * The correction capability of the form *)
(* ================================================================== *)

Lemma trim_idem s : trim (trim s) = trim s.
Proof.
  assert (Hstart : trimStart (trim s) = trim s).
  { destruct (trim s) as [|c t] eqn:E; [reflexivity|].
    apply dropWhile_stop, (trim_head _ _ _ E). }
  unfold trim at 1. rewrite Hstart. apply trim_trimEnd_fixed.
Qed.

Lemma isBlank_trim s : isBlank (trim s) = isBlank s.
Proof. unfold isBlank. rewrite trim_idem. reflexivity. Qed.

Lemma trimmedOr_blank correctedText text :
  isBlank text = false -> isBlank (trimmedOr correctedText text) = false.
Proof.
  intros H. unfold trimmedOr. destruct correctedText as [t|]; [|assumption].
  destruct (trim t) as [|c r] eqn:E; [assumption|].
  rewrite <- E, isBlank_trim. unfold isBlank. rewrite E. reflexivity.
Qed.

(** What the capability answers. *)
Lemma capability_result text api :
  settleWith api (correctGrammarAndSpelling text) =
    Resolved (if isBlank text then text
              else match api with
                   | ApiResponse correctedText => trimmedOr correctedText text
                   | ApiFailure => text
                   end).
Proof.
  unfold correctGrammarAndSpelling. fold (isBlank text).
  destruct text as [|c text]; [reflexivity|]. cbn [orb].
  destruct (isBlank (c :: text)); [reflexivity|].
  destruct api; reflexivity.
Qed.

(** X16.  The capability of the form never fails and never blanks a
    text: whatever the request does, the promise resolves, with the text
    it was given or with the trimmed answer of the service; a failure of
    the request and an answer that is missing or blank give the text
    back; the result is blank exactly when the text is, and a blank text
    is given back without a request. *)
Theorem capability_never_fails text api :
  exists corrected,
    settleWith api (correctGrammarAndSpelling text) = Resolved corrected
    /\ isBlank corrected = isBlank text
    /\ (corrected = text
        \/ exists t, api = ApiResponse (Some t) /\ corrected = trim t)
    /\ (api = ApiFailure -> corrected = text)
    /\ (api = ApiResponse None -> corrected = text)
    /\ (forall t, api = ApiResponse (Some t) -> isBlank t = true ->
        corrected = text)
    /\ (isBlank text = true ->
        correctGrammarAndSpelling text = Settled (Resolved text) false).
Proof.
  rewrite capability_result. eexists. split; [reflexivity|].
  destruct (isBlank text) eqn:Eb.
  - split; [assumption|]. split; [left; reflexivity|].
    repeat (split; [reflexivity|]).
    intros _. unfold correctGrammarAndSpelling. fold (isBlank text).
    rewrite Eb, orb_true_r. reflexivity.
  - destruct api as [[t|]|].
    + split; [apply trimmedOr_blank; assumption|].
      split; [|split; [discriminate|split; [discriminate|split; [|discriminate]]]].
      * unfold trimmedOr. destruct (trim t) eqn:E; [left; reflexivity|].
        right. exists t. split; [reflexivity | symmetry; exact E].
      * intros t' [= <-] Ht. unfold trimmedOr.
        unfold isBlank in Ht. apply Nat.eqb_eq, length_zero_iff_nil in Ht.
        rewrite Ht. reflexivity.
    + split; [assumption|]. split; [left; reflexivity|].
      split; [discriminate|]. split; [reflexivity|]. split; discriminate.
    + split; [assumption|]. split; [left; reflexivity|].
      split; [reflexivity|]. split; [discriminate|]. split; discriminate.
Qed.

(** X16 on the text [teh] and a request that fails. *)
Lemma capability_never_fails_witness :
  settleWith ApiFailure (correctGrammarAndSpelling (lit "teh"%string))
  = Resolved (lit "teh"%string).
Proof.
  destruct (capability_never_fails (lit "teh"%string) ApiFailure)
    as (corrected & Hres & _ & _ & Hfail & _).
  rewrite Hres, (Hfail eq_refl). reflexivity.
Defined.

(** X17.  In the editable form a blur never reaches the failure branch
    of the blur handler: the capability takes its own failures, so the
    handler does not write to the console; the buffer after the blur is
    the reformatted text or the trimmed answer of the service, it is the
    reformatted text when the request fails, it is blank exactly when
    the buffer was, and the flag is down. *)
Theorem form_blur_never_fails api f :
  errors (formBlur false api f) = errors f
  /\ (isBlank (value f) = false -> isCorrecting (formBlur false api f) = false)
  /\ isBlank (value (formBlur false api f)) = isBlank (value f)
  /\ (value (formBlur false api f) = reformatTextToNumberedList (value f)
      \/ exists t, api = ApiResponse (Some t)
                   /\ value (formBlur false api f) = trim t)
  /\ (api = ApiFailure ->
      value (formBlur false api f) = reformatTextToNumberedList (value f)).
Proof.
  unfold formBlur.
  destruct (startsCorrection (formProps false) (value f)) eqn:E.
  - pose proof E as E'. apply startsCorrection_iff in E'.
    destruct E' as (_ & _ & Hnb).
    destruct (onBlur_call (formProps false) f E) as (resume & -> & Hres & _).
    cbn [fst]. rewrite capability_result, reformat_blank_iff_line, Hnb.
    unfold settle. cbn [snd]. rewrite Hres. cbn [fst].
    set (f1 := applyEffect (SetIsCorrecting true) f).
    set (formatted := reformatTextToNumberedList (value f)).
    assert (Hfmt : isBlank formatted = false)
      by (unfold formatted; rewrite reformat_blank_iff_line; assumption).
    assert (Hval : forall v, value (applyEffect (SetIsCorrecting false)
                                     (commitIfDiffers (value f) v f1)) = v)
      by (intros v; exact (value_commitIfDiffers f1 v)).
    split; [|split; [|split; [|split]]].
    + cbn [applyEffect errors]. unfold commitIfDiffers.
      destruct (JS.eqb _ _); reflexivity.
    + reflexivity.
    + rewrite Hval. destruct api as [t|]; [|assumption].
      apply trimmedOr_blank; assumption.
    + rewrite Hval. destruct api as [[t|]|]; try (left; reflexivity).
      unfold trimmedOr. destruct (trim t) eqn:Et; [left; reflexivity|].
      right. exists t. split; [reflexivity | symmetry; exact Et].
    + intros ->. apply Hval.
  - assert (Hb : isBlank (value f) = true).
    { destruct (isBlank (value f)) eqn:Hb; [reflexivity|].
      assert (startsCorrection (formProps false) (value f) = true)
        by (apply startsCorrection_iff; auto).
      congruence. }
    rewrite (onBlur_local _ f E).
    split; [|split; [|split; [|split]]].
    + unfold commitIfDiffers. destruct (JS.eqb _ _); reflexivity.
    + congruence.
    + rewrite value_commitIfDiffers. apply reformat_blank_iff_line.
    + left. apply value_commitIfDiffers.
    + intros _. apply value_commitIfDiffers.
Qed.

(** X17 on a field that shows [teh] and a request that fails. *)
Lemma form_blur_never_fails_witness :
  value (formBlur false ApiFailure (mkField (lit "teh"%string) 3 None false [] 0))
  = lit "1. teh"%string.
Proof.
  exact (proj2 (proj2 (proj2 (proj2
           (form_blur_never_fails ApiFailure
              (mkField (lit "teh"%string) 3 None false [] 0))))) eq_refl).
Defined.

(* ================================================================== *)
(** * The name of the downloaded file *)
(* ================================================================== *)

Lemma sanitize_all s :
  forallb (fun c => isAlphaNumeric c || (c =? 95)%N)
    (map (fun c => if isAlphaNumeric c then c else 95%N) s) = true.
Proof.
  induction s as [|c s IH]; [reflexivity|].
  simpl. destruct (isAlphaNumeric c) eqn:E; simpl; rewrite ?E; exact IH.
Qed.

Lemma sanitize_fixed s :
  forallb (fun c => isAlphaNumeric c || (c =? 95)%N) s = true ->
  map (fun c => if isAlphaNumeric c then c else 95%N) s = s.
Proof.
  induction s as [|c s IH]; [reflexivity|]. simpl.
  intros H. apply andb_true_iff in H. destruct H as [Hc Hs].
  rewrite (IH Hs). f_equal.
  destruct (isAlphaNumeric c); [reflexivity|].
  simpl in Hc. apply N.eqb_eq in Hc. congruence.
Qed.

(** X18.  The hospital name in the name of the downloaded file is never
    empty and holds nothing but ASCII letters, digits and underscores;
    it is as long as the name entered unless that is empty, and cleaning
    it again changes nothing. *)
Theorem safeHospitalName_safe hospitalName :
  safeHospitalName hospitalName <> []
  /\ forallb (fun c => isAlphaNumeric c || (c =? 95)%N)
       (safeHospitalName hospitalName) = true
  /\ (hospitalName <> [] ->
      length (safeHospitalName hospitalName) = length hospitalName)
  /\ safeHospitalName (safeHospitalName hospitalName)
     = safeHospitalName hospitalName.
Proof.
  assert (Hall : forallb (fun c => isAlphaNumeric c || (c =? 95)%N)
                   (safeHospitalName hospitalName) = true).
  { unfold safeHospitalName. pose proof (sanitize_all hospitalName) as H.
    destruct (map (fun c => if isAlphaNumeric c then c else 95%N) hospitalName);
      [reflexivity | exact H]. }
  assert (Hne : safeHospitalName hospitalName <> []).
  { unfold safeHospitalName. destruct hospitalName; discriminate. }
  split; [exact Hne|]. split; [exact Hall|]. split.
  - intros H. unfold safeHospitalName.
    destruct hospitalName as [|c s]; [congruence|].
    cbn [map length]. rewrite length_map. reflexivity.
  - unfold safeHospitalName at 1. rewrite (sanitize_fixed _ Hall).
    destruct (safeHospitalName hospitalName); [congruence|reflexivity].
Qed.

(** X18 on the name [St. Mary]. *)
Lemma safeHospitalName_safe_witness :
  length (safeHospitalName (lit "St. Mary"%string)) = 8.
Proof.
  refine (proj1 (proj2 (proj2 (safeHospitalName_safe (lit "St. Mary"%string)))) _).
  discriminate.
Defined.

(* ================================================================== *)
(** * The comma-separated values *)
(* ================================================================== *)

(** A quoted field reads back as the text that was quoted, up to what
    follows the closing mark, when that is not a quotation mark. *)
Lemma readQuoted_escape s rest :
  match rest with
  | c :: _ => (c =? 34)%N = false
  | [] => True
  end ->
  readQuoted (escapeQuotes s ++ 34%N :: rest) = Some (s, rest).
Proof.
  intros Hrest. induction s as [|c s IH].
  - simpl. destruct rest as [|d rest]; [reflexivity|]. rewrite Hrest. reflexivity.
  - unfold escapeQuotes. cbn [flat_map]. fold (escapeQuotes s).
    destruct (c =? 34)%N eqn:Ec.
    + apply N.eqb_eq in Ec. subst c.
      change (([34%N; 34%N] ++ escapeQuotes s) ++ 34%N :: rest)
        with (34%N :: 34%N :: (escapeQuotes s ++ 34%N :: rest)).
      cbn [readQuoted]. rewrite N.eqb_refl, IH. reflexivity.
    + change (([c] ++ escapeQuotes s) ++ 34%N :: rest)
        with (c :: (escapeQuotes s ++ 34%N :: rest)).
      cbn [readQuoted]. rewrite Ec, IH. reflexivity.
Qed.

Section CsvFacts.

Variable JSNumber : Type.
Variable numberToString : JSNumber -> jsstring.

Lemma valueRow_cons v v' values :
  valueRow numberToString (v :: v' :: values)
  = formatValue numberToString v ++ [44%N]
      ++ valueRow numberToString (v' :: values).
Proof. reflexivity. Qed.

Lemma readRow_last fuel text :
  readRow (S fuel) ([34%N] ++ escapeQuotes text ++ [34%N]) = Some [text].
Proof.
  change ([34%N] ++ escapeQuotes text ++ [34%N])
    with (34%N :: (escapeQuotes text ++ 34%N :: [])).
  cbn [readRow]. change ((34 =? 34)%N) with true. cbv iota.
  rewrite (readQuoted_escape text []) by exact I. reflexivity.
Qed.

Lemma readRow_next fuel text rest :
  readRow (S fuel) (([34%N] ++ escapeQuotes text ++ [34%N]) ++ [44%N] ++ rest)
  = match readRow fuel rest with
    | Some texts => Some (text :: texts)
    | None => None
    end.
Proof.
  replace (([34%N] ++ escapeQuotes text ++ [34%N]) ++ [44%N] ++ rest)
    with (34%N :: (escapeQuotes text ++ 34%N :: 44%N :: rest))
    by (simpl; rewrite <- app_assoc; reflexivity).
  cbn [readRow]. change ((34 =? 34)%N) with true. cbv iota.
  rewrite (readQuoted_escape text (44%N :: rest)) by reflexivity.
  change ((44 =? 44)%N) with true. reflexivity.
Qed.

Lemma readRow_valueRow values fuel :
  values <> [] ->
  length values <= fuel ->
  readRow fuel (valueRow numberToString values)
  = Some (map (valueText numberToString) values).
Proof.
  revert fuel. induction values as [|v values IH]; [congruence|].
  intros fuel _ Hfuel. destruct fuel as [|fuel]; [simpl in Hfuel; lia|].
  destruct values as [|v' values].
  - apply readRow_last.
  - rewrite valueRow_cons. unfold formatValue at 1.
    rewrite readRow_next, IH by (discriminate || (simpl in *; lia)).
    reflexivity.
Qed.

Lemma length_valueRow values :
  length values <= length (valueRow numberToString values).
Proof.
  induction values as [|v values IH]; [simpl; lia|].
  destruct values as [|v' values].
  - unfold valueRow, formatValue. cbn [map joinWith]. rewrite !length_app.
    simpl. lia.
  - rewrite valueRow_cons, !length_app. simpl in *. lia.
Qed.

(** X19.  The row of values of the exported file reads back as the
    values: each one comes back as the text that was quoted, quotation
    marks, commas and line breaks included, and there are as many fields
    as entries; the content of the file is the row of quoted keys, a line
    feed and that row. *)
Theorem csv_values_read_back (data : list (jsstring * FormValue JSNumber)) :
  data <> [] ->
  readCsvRow (valueRow numberToString (map snd data))
  = Some (map (fun entry => valueText numberToString (snd entry)) data)
  /\ csvContent numberToString data
     = joinWith [44%N] (map (fun entry => [34%N] ++ fst entry ++ [34%N]) data)
         ++ [LF] ++ valueRow numberToString (map snd data).
Proof.
  intros Hne. split.
  - unfold readCsvRow. rewrite readRow_valueRow.
    + rewrite map_map. reflexivity.
    + destruct data; [congruence|discriminate].
    + apply length_valueRow.
  - unfold csvContent, valueRow. rewrite !map_map. reflexivity.
Qed.

End CsvFacts.

(** X19 on an entry whose text has a quotation mark, a comma and a line
    feed, and a boolean entry. *)
Lemma csv_values_read_back_witness :
  readCsvRow
    (valueRow (fun n : nat => toString n)
       [VString nat ([34%N; 44%N; LF] ++ lit "a"%string); VBoolean nat true])
  = Some [[34%N; 44%N; LF] ++ lit "a"%string; lit "true"%string].
Proof.
  refine (proj1 (csv_values_read_back nat (fun n : nat => toString n)
            [(lit "notes"%string, VString nat ([34%N; 44%N; LF] ++ lit "a"%string));
             (lit "done"%string, VBoolean nat true)] _)).
  discriminate.
Defined.

(* ================================================================== *)
(** * The hospital search *)
(* ================================================================== *)

Lemma startsWith_refl s : startsWith s s = true.
Proof.
  induction s as [|c s IH]; [reflexivity|].
  simpl. rewrite N.eqb_refl. exact IH.
Qed.

Lemma includes_refl s : includes s s = true.
Proof. destruct s; simpl; rewrite ?N.eqb_refl, ?startsWith_refl; reflexivity. Qed.

Section HospitalFacts.

Variable toLowerCase : jsstring -> jsstring.
Variable hospitals : list Hospital.

Lemma suggested_for_own_name h search :
  In h hospitals ->
  toLowerCase (name h) = toLowerCase search ->
  In h (filteredHospitals toLowerCase hospitals
          (mkHospitalEntry search (zohoCode h))).
Proof.
  intros Hin Heq. unfold filteredHospitals. cbn [hospitalName].
  destruct (toLowerCase search) as [|c s] eqn:E; [assumption|].
  apply filter_In. split; [assumption|].
  rewrite Heq. apply includes_refl.
Qed.

(** X20.  The search and the suggestions agree: when typing a name fills
    in a code, the code is that of a hospital of the table whose name is
    the typed one up to case, and that hospital is among the suggestions
    for the typed name; when no hospital has that name up to case the
    code is emptied; and a hospital picked from the table is among the
    suggestions for its own name. *)
Theorem search_and_suggestions_agree newSearch :
  (forall h,
      matchedHospital toLowerCase hospitals newSearch = Some h ->
      entryZohoCode (searchChange toLowerCase hospitals newSearch) = zohoCode h
      /\ In h hospitals
      /\ toLowerCase (name h) = toLowerCase newSearch
      /\ In h (filteredHospitals toLowerCase hospitals
                 (searchChange toLowerCase hospitals newSearch)))
  /\ (matchedHospital toLowerCase hospitals newSearch = None ->
      entryZohoCode (searchChange toLowerCase hospitals newSearch) = []
      /\ forall h, In h hospitals ->
                   toLowerCase (name h) <> toLowerCase newSearch)
  /\ (forall h,
        In h hospitals ->
        In h (filteredHospitals toLowerCase hospitals (handleHospitalSelect h))).
Proof.
  split; [|split].
  - intros h Hfind. unfold searchChange. rewrite Hfind. cbn [entryZohoCode].
    unfold matchedHospital in Hfind. apply find_some in Hfind.
    destruct Hfind as [Hin Heq]. apply eqb_spec in Heq.
    split; [reflexivity|]. split; [assumption|]. split; [assumption|].
    apply suggested_for_own_name; assumption.
  - intros Hnone. unfold searchChange. rewrite Hnone. split; [reflexivity|].
    intros h Hin Heq. unfold matchedHospital in Hnone.
    pose proof (find_none _ _ Hnone h Hin) as Hf. cbn beta in Hf.
    apply eqb_neq in Hf. contradiction.
  - intros h Hin. apply suggested_for_own_name; [assumption|reflexivity].
Qed.

End HospitalFacts.

(** X20 on a table of two hospitals, with the identity for the change of
    case. *)
Lemma search_and_suggestions_agree_witness :
  In (mkHospital (lit "B"%string) (lit "Z2"%string))
     (filteredHospitals (fun s => s)
        [mkHospital (lit "A"%string) (lit "Z1"%string);
         mkHospital (lit "B"%string) (lit "Z2"%string)]
        (searchChange (fun s => s)
           [mkHospital (lit "A"%string) (lit "Z1"%string);
            mkHospital (lit "B"%string) (lit "Z2"%string)]
           (lit "B"%string))).
Proof.
  apply (proj1 (search_and_suggestions_agree (fun s => s)
                  [mkHospital (lit "A"%string) (lit "Z1"%string);
                   mkHospital (lit "B"%string) (lit "Z2"%string)]
                  (lit "B"%string))
           (mkHospital (lit "B"%string) (lit "Z2"%string)) eq_refl).
Defined.

(* ================================================================== *)
(** * The file inputs *)
(* ================================================================== *)

Section FileFacts.

Variable JSNumber : Type.

(** X21.  Whatever is selected, no more than ten files are stored under
    [trainingPhotos]: a multiple selection is cut to its first ten files,
    with the alert exactly when it had more; a cancelled selection
    empties the entry; and the entries under the other keys stay as they
    were. *)
Theorem at_most_ten_training_photos
    (files : option (list File)) (prev : FormData JSNumber) :
  (exists stored,
      fst (handleFileChange (lit "trainingPhotos"%string) files true prev)
        (lit "trainingPhotos"%string) = Some (VFiles JSNumber stored)
      /\ length stored <= 10
      /\ stored = firstn 10 (match files with Some fs => fs | None => [] end)
      /\ (snd (handleFileChange (lit "trainingPhotos"%string) files true prev) = true
          <-> 10 < length (match files with Some fs => fs | None => [] end)))
  /\ (forall name isMultiple key,
        key <> name ->
        fst (handleFileChange name files isMultiple prev) key = prev key).
Proof.
  split.
  - destruct files as [[|file others]|].
    + exists []. cbn. repeat split; try lia; try discriminate.
    + unfold handleFileChange, setEntry. cbn [fst snd].
      rewrite !eqb_refl. cbn [andb].
      generalize (file :: others). intros selected.
      destruct (10 <? length selected) eqn:E.
      * exists (firstn 10 selected). split; [reflexivity|].
        split; [apply firstn_le_length|]. split; [reflexivity|].
        apply Nat.ltb_lt in E. split; [intros _; exact E | reflexivity].
      * exists selected. split; [reflexivity|].
        apply Nat.ltb_ge in E. split; [exact E|]. split.
        -- symmetry. apply firstn_all2. exact E.
        -- split; [discriminate | lia].
    + exists []. cbn. repeat split; try lia; try discriminate.
  - intros name isMultiple key Hkey.
    assert (Hne : JS.eqb key name = false) by (apply eqb_neq; assumption).
    unfold handleFileChange.
    destruct files as [[|file others]|]; cbn [fst]; unfold setEntry;
      rewrite Hne; reflexivity.
Qed.

End FileFacts.

(** X21 on a selection of twelve files. *)
Lemma at_most_ten_training_photos_witness :
  snd (handleFileChange (JSNumber := nat) (lit "trainingPhotos"%string)
         (Some (repeat (mkFile (lit "p.png"%string) (lit "image/png"%string)) 12))
         true (fun _ => None))
  = true.
Proof.
  destruct (proj1 (at_most_ten_training_photos nat
                     (Some (repeat (mkFile (lit "p.png"%string)
                                      (lit "image/png"%string)) 12))
                     (fun _ => None)))
    as (stored & _ & _ & _ & Halert).
  apply Halert. vm_compute. lia.
Defined.
